(** * hdPrman render delegate and usdImagingGL engine wrapper

    A shallow embedding of

      - third_party/renderman-24/plugin/hdPrman/renderDelegate.cpp
      - pxr/usdImaging/usdImagingGL/wrapEngine.cpp

    Member functions become functions on an explicit [World]: the delegate
    object together with the free store holding the prims it hands out, the
    diagnostic channel and standard output.  Pointers are addresses into the
    free store, [nullptr] is [None]. *)

From Stdlib Require Import Ascii.
From stdpp Require Import gmap strings list fin_maps.

Local Open Scope Z_scope.
Local Open Scope string_scope.

(** ** Base types *)

(** [TfToken] and [SdfPath] are compared and stored only; both are carried
    by their text. *)
Abbreviation TfToken := string (only parsing).
Abbreviation SdfPath := string (only parsing).

(** [SdfPath()] and [SdfPath::EmptyPath()]. *)
Definition SdfPath_EmptyPath : SdfPath := "".

(** Modelled from the spec: [VtValue] (pxr/base/vt/value.h) is the
    dynamically typed value of a render setting, "string, bool, int, float"
    with a value-equality check.  A held [float] is carried by its binary32
    encoding; [int] by its value.  Values holding different types are
    unequal; values holding the same type compare by that type's own [==],
    which for [float] is comparison by value. *)
Inductive VtValue : Type :=
| VtEmpty
| VtString (s : string)
| VtBool (b : bool)
| VtInt (i : Z)
| VtFloat (bits : Z).

#[global] Instance VtValue_eq_dec : EqDecision VtValue.
Proof. solve_decision. Defined.

(** [float] comparison on binary32 encodings: a NaN (exponent all ones,
    fraction not zero) is unequal to everything, itself included; the two
    zeros are equal; any other two floats are equal when their encodings
    are. *)
Definition float32_is_nan (bits : Z) : bool :=
  (0x7F800000 <? Z.land bits 0x7FFFFFFF)%Z.

Definition float32_is_zero (bits : Z) : bool :=
  (Z.land bits 0x7FFFFFFF =? 0)%Z.

Definition float32_eqb (a b : Z) : bool :=
  negb (float32_is_nan a) && negb (float32_is_nan b) &&
  ((float32_is_zero a && float32_is_zero b) || (a =? b)%Z).

(** [operator==] and [operator!=] on [VtValue]. *)
Definition VtValue_eqb (a b : VtValue) : bool :=
  match a, b with
  | VtEmpty, VtEmpty => true
  | VtString s, VtString t => (s =? t)%string
  | VtBool x, VtBool y => Bool.eqb x y
  | VtInt i, VtInt j => (i =? j)%Z
  | VtFloat x, VtFloat y => float32_eqb x y
  | _, _ => false
  end.

Definition VtValue_ne (a b : VtValue) : bool := negb (VtValue_eqb a b).

(** The value holds a [float] that is a NaN. *)
Definition VtValue_is_nan (v : VtValue) : bool :=
  match v with
  | VtFloat bits => float32_is_nan bits
  | _ => false
  end.

(** ** Machine integers *)

(** [unsigned int] arithmetic is modulo 2^32. *)
Definition UINT_MODULUS : Z := 2 ^ 32.
Definition uint_wrap (z : Z) : Z := z mod UINT_MODULUS.
Definition uint_incr (z : Z) : Z := uint_wrap (z + 1).

(** [int] is 32-bit two's complement. *)
Definition INT_MIN : Z := - 2 ^ 31.
Definition INT_MAX : Z := 2 ^ 31 - 1.
Definition int_wrap (z : Z) : Z := (z + 2 ^ 31) mod 2 ^ 32 - 2 ^ 31.
Definition int_incr (z : Z) : Z := int_wrap (z + 1).
Definition int_decr (z : Z) : Z := int_wrap (z - 1).

(** ** Tokens *)

(** Modelled from the spec: the prim type tags of [HdPrimTypeTokens]
    (pxr/imaging/hd/tokens.h), "mesh, basisCurves, points, volume; camera,
    material, coordSys, lightFilter, light, distantLight, domeLight,
    rectLight, diskLight, cylinderLight, sphereLight, pluginLight,
    extComputation; renderBuffer".  Each token has its identifier as text. *)
Module HdPrimTypeTokens.
Definition mesh : TfToken := "mesh".
Definition basisCurves : TfToken := "basisCurves".
Definition points : TfToken := "points".
Definition volume : TfToken := "volume".
Definition camera : TfToken := "camera".
Definition material : TfToken := "material".
Definition distantLight : TfToken := "distantLight".
Definition domeLight : TfToken := "domeLight".
Definition light : TfToken := "light".
Definition lightFilter : TfToken := "lightFilter".
Definition rectLight : TfToken := "rectLight".
Definition diskLight : TfToken := "diskLight".
Definition cylinderLight : TfToken := "cylinderLight".
Definition sphereLight : TfToken := "sphereLight".
Definition pluginLight : TfToken := "pluginLight".
Definition extComputation : TfToken := "extComputation".
Definition coordSys : TfToken := "coordSys".
Definition renderBuffer : TfToken := "renderBuffer".
End HdPrimTypeTokens.

(** [TF_DEFINE_PRIVATE_TOKENS(_tokens, ...)]. *)
Module _tokens.
Definition openvdbAsset : TfToken := "openvdbAsset".
Definition field3dAsset : TfToken := "field3dAsset".
Definition mtlxRenderContext : TfToken := "mtlx".
Definition prmanParams : TfToken := "prmanParams".
End _tokens.

(** Modelled from the spec: the render setting keys of
    [HdRenderSettingsTokens] and [HdPrmanRenderSettingsTokens] ("integrator
    name, optional interactive-integrator name + timeout-in-milliseconds,
    converged-samples-per-pixel, converged-variance, backend-variant string,
    and a disable-motion-blur boolean") and the integrator names of
    [HdPrmanIntegratorTokens]; their macros are in headers that are not part
    of the sources at hand.  Each token has its identifier as text. *)
Module HdRenderSettingsTokens.
Definition enableInteractive : TfToken := "enableInteractive".
Definition convergedSamplesPerPixel : TfToken := "convergedSamplesPerPixel".
Definition convergedVariance : TfToken := "convergedVariance".
End HdRenderSettingsTokens.

Module HdPrmanRenderSettingsTokens.
Definition integratorName : TfToken := "integratorName".
Definition interactiveIntegrator : TfToken := "interactiveIntegrator".
Definition interactiveIntegratorTimeout : TfToken :=
  "interactiveIntegratorTimeout".
Definition rileyVariant : TfToken := "rileyVariant".
Definition disableMotionBlur : TfToken := "disableMotionBlur".
End HdPrmanRenderSettingsTokens.

Module HdPrmanIntegratorTokens.
Definition PxrPathTracer : TfToken := "PxrPathTracer".
Definition PxrDirectLighting : TfToken := "PxrDirectLighting".
End HdPrmanIntegratorTokens.

(** ** Prims *)

(** The objects the factories construct, one constructor per [new]
    expression with the arguments it is given. *)
Inductive HdRprim : Type :=
| HdPrman_Mesh (id : SdfPath)
| HdPrman_BasisCurves (id : SdfPath)
| HdPrman_Points (id : SdfPath)
| HdPrman_Volume (id : SdfPath).

Inductive HdSprim : Type :=
| HdPrmanCamera (id : SdfPath)
| HdPrmanMaterial (id : SdfPath)
| HdPrmanCoordSys (id : SdfPath)
| HdPrmanLightFilter (id : SdfPath) (lightFilterType : TfToken)
| HdPrmanLight (id : SdfPath) (lightType : TfToken)
| HdExtComputation (id : SdfPath)
| HdPrmanParamsSetter (id : SdfPath).

Inductive HdBprim : Type :=
| HdPrman_Field (typeId : TfToken) (id : SdfPath)
| HdPrmanRenderBuffer (id : SdfPath).

(** [HdSprim::GetId()]: the path given to the constructor. *)
Definition HdSprim_GetId (sprim : HdSprim) : SdfPath :=
  match sprim with
  | HdPrmanCamera id | HdPrmanMaterial id | HdPrmanCoordSys id
  | HdPrmanLightFilter id _ | HdPrmanLight id _
  | HdExtComputation id | HdPrmanParamsSetter id => id
  end.

Definition HdRprim_GetId (rprim : HdRprim) : SdfPath :=
  match rprim with
  | HdPrman_Mesh id | HdPrman_BasisCurves id
  | HdPrman_Points id | HdPrman_Volume id => id
  end.

Definition HdBprim_GetId (bprim : HdBprim) : SdfPath :=
  match bprim with
  | HdPrman_Field _ id | HdPrmanRenderBuffer id => id
  end.

(** The tags a class that serves several of them stands for: the light
    class the eight light tags, the field class the two field assets. *)
Definition HdLight_types : list TfToken :=
  [ HdPrimTypeTokens.light;
    HdPrimTypeTokens.distantLight;
    HdPrimTypeTokens.domeLight;
    HdPrimTypeTokens.rectLight;
    HdPrimTypeTokens.diskLight;
    HdPrimTypeTokens.cylinderLight;
    HdPrimTypeTokens.sphereLight;
    HdPrimTypeTokens.pluginLight ].

Definition HdField_types : list TfToken :=
  [ _tokens.openvdbAsset; _tokens.field3dAsset ].

(** The prim type a constructed object stands for: the tag of its class,
    or, where the class serves several tags, the tag it was constructed
    with when that is one of them.  An object constructed with a tag its
    class does not serve stands for no prim type. *)
Definition HdRprim_type (rprim : HdRprim) : option TfToken :=
  match rprim with
  | HdPrman_Mesh _ => Some HdPrimTypeTokens.mesh
  | HdPrman_BasisCurves _ => Some HdPrimTypeTokens.basisCurves
  | HdPrman_Points _ => Some HdPrimTypeTokens.points
  | HdPrman_Volume _ => Some HdPrimTypeTokens.volume
  end.

Definition HdSprim_type (sprim : HdSprim) : option TfToken :=
  match sprim with
  | HdPrmanCamera _ => Some HdPrimTypeTokens.camera
  | HdPrmanMaterial _ => Some HdPrimTypeTokens.material
  | HdPrmanCoordSys _ => Some HdPrimTypeTokens.coordSys
  | HdPrmanLightFilter _ t =>
      if (t =? HdPrimTypeTokens.lightFilter)%string then Some t else None
  | HdPrmanLight _ t =>
      if bool_decide (t ∈ HdLight_types) then Some t else None
  | HdExtComputation _ => Some HdPrimTypeTokens.extComputation
  | HdPrmanParamsSetter _ => Some _tokens.prmanParams
  end.

Definition HdBprim_type (bprim : HdBprim) : option TfToken :=
  match bprim with
  | HdPrman_Field t _ =>
      if bool_decide (t ∈ HdField_types) then Some t else None
  | HdPrmanRenderBuffer _ => Some HdPrimTypeTokens.renderBuffer
  end.

(** ** The delegate and its surroundings *)

(** Modelled from the spec: [HdPrman_RenderParam] (hdPrman/renderParam.h),
    the object behind [_renderParam]: "an internal scene-version counter"
    (a [std::atomic<int>]), the "light count: integer counter" (an [int]),
    the render-activity state queried by [IsRendering] and the variant name
    it is constructed with. *)
Record HdPrman_RenderParam : Type := mkRenderParam {
  rileyVariant : string;
  sceneVersion : Z;
  _sceneLightCount : Z;
  _rendering : bool;
  _stopRequested : bool
}.

(** [HdRenderSettingDescriptor]: the three members of the braced
    initializers in [_Initialize]. *)
Record HdRenderSettingDescriptor : Type := mkDescriptor {
  name : string;
  key : TfToken;
  defaultValue : VtValue
}.

#[global] Instance HdRenderSettingDescriptor_eq_dec :
  EqDecision HdRenderSettingDescriptor.
Proof. solve_decision. Defined.

(** The data members the code reads and writes; [_settingsMap] and
    [_settingsVersion] (an [unsigned int]) are inherited from
    [HdRenderDelegate]. *)
Record HdPrmanRenderDelegate : Type := mkDelegate {
  _settingsMap : gmap string VtValue;
  _settingsVersion : Z;
  _settingDescriptors : list HdRenderSettingDescriptor;
  _renderParam : HdPrman_RenderParam
}.

(** What [TF_CODING_ERROR] posts to the diagnostic channel. *)
Inductive TfDiagnostic : Type :=
| TfCodingError (message : string).

(** A line written to [std::cout] by [SetRenderSetting]:
    "Render Setting [" << key << "] = " << value. *)
Inductive StdoutLine : Type :=
| RenderSettingLine (key : TfToken) (value : VtValue).

(** The delegate ([this]) with the free store of the prims it has
    constructed, the diagnostic channel, the [TfDebug] switch and standard
    output. *)
Record World : Type := mkWorld {
  this : HdPrmanRenderDelegate;
  rprims : gmap positive HdRprim;
  sprims : gmap positive HdSprim;
  bprims : gmap positive HdBprim;
  diagnostics : list TfDiagnostic;
  debug_HD_RENDER_SETTINGS : bool;
  stdout : list StdoutLine
}.

(** What initialization reads from the process environment: [TfGetenv]
    (empty string when unset), [TfGetenvInt] (the default when unset) and
    the [TfEnvSetting] HD_PRMAN_ENABLE_QUICKINTEGRATE. *)
Record Environment : Type := mkEnvironment {
  env_strings : gmap string string;
  env_ints : gmap string Z;
  HD_PRMAN_ENABLE_QUICKINTEGRATE : bool
}.

Definition TfGetenv (env : Environment) (var : string) : string :=
  default "" (env_strings env !! var).

Definition TfGetenvInt (env : Environment) (var : string) (def : Z) : Z :=
  default def (env_ints env !! var).

(** *** Field updates *)

Definition set_renderParam (f : HdPrman_RenderParam -> HdPrman_RenderParam)
    (d : HdPrmanRenderDelegate) : HdPrmanRenderDelegate :=
  mkDelegate (_settingsMap d) (_settingsVersion d) (_settingDescriptors d)
             (f (_renderParam d)).

Definition set_this (f : HdPrmanRenderDelegate -> HdPrmanRenderDelegate)
    (w : World) : World :=
  mkWorld (f (this w)) (rprims w) (sprims w) (bprims w) (diagnostics w)
          (debug_HD_RENDER_SETTINGS w) (stdout w).

Definition set_rprims (h : gmap positive HdRprim) (w : World) : World :=
  mkWorld (this w) h (sprims w) (bprims w) (diagnostics w)
          (debug_HD_RENDER_SETTINGS w) (stdout w).

Definition set_sprims (h : gmap positive HdSprim) (w : World) : World :=
  mkWorld (this w) (rprims w) h (bprims w) (diagnostics w)
          (debug_HD_RENDER_SETTINGS w) (stdout w).

Definition set_bprims (h : gmap positive HdBprim) (w : World) : World :=
  mkWorld (this w) (rprims w) (sprims w) h (diagnostics w)
          (debug_HD_RENDER_SETTINGS w) (stdout w).

(** [TF_CODING_ERROR(msg)]. *)
Definition TF_CODING_ERROR (msg : string) (w : World) : World :=
  mkWorld (this w) (rprims w) (sprims w) (bprims w)
          (diagnostics w ++ [TfCodingError msg])
          (debug_HD_RENDER_SETTINGS w) (stdout w).

(** [std::cout << ... << std::endl]. *)
Definition cout (line : StdoutLine) (w : World) : World :=
  mkWorld (this w) (rprims w) (sprims w) (bprims w) (diagnostics w)
          (debug_HD_RENDER_SETTINGS w) (stdout w ++ [line]).

(** *** The render param's members *)

(** Modelled from the spec: [IncreaseSceneLightCount] and
    [DecreaseSceneLightCount] of hdPrman/renderParam.h, "incremented /
    decremented on light Sprim creation/destruction". *)
Definition IncreaseSceneLightCount (rp : HdPrman_RenderParam)
    : HdPrman_RenderParam :=
  mkRenderParam (rileyVariant rp) (sceneVersion rp)
                (int_incr (_sceneLightCount rp)) (_rendering rp)
                (_stopRequested rp).

Definition DecreaseSceneLightCount (rp : HdPrman_RenderParam)
    : HdPrman_RenderParam :=
  mkRenderParam (rileyVariant rp) (sceneVersion rp)
                (int_decr (_sceneLightCount rp)) (_rendering rp)
                (_stopRequested rp).

(** Modelled from the spec: [IsRendering] and [StopRender] of
    hdPrman/renderParam.h.  [StopRender] "requests the underlying render
    loop halt; if blocking, the call does not return until halted"; without
    blocking the request is "advisory until the underlying loop observes
    it". *)
Definition IsRendering (rp : HdPrman_RenderParam) : bool := _rendering rp.

Definition StopRender (blocking : bool) (rp : HdPrman_RenderParam)
    : HdPrman_RenderParam :=
  mkRenderParam (rileyVariant rp) (sceneVersion rp) (_sceneLightCount rp)
                (if blocking then false else _rendering rp) true.

(** [_renderParam->sceneVersion++]. *)
Definition sceneVersion_incr (rp : HdPrman_RenderParam)
    : HdPrman_RenderParam :=
  mkRenderParam (rileyVariant rp) (int_incr (sceneVersion rp))
                (_sceneLightCount rp) (_rendering rp) (_stopRequested rp).

(** ** renderDelegate.cpp *)

Definition SUPPORTED_RPRIM_TYPES : list TfToken :=
  [ HdPrimTypeTokens.mesh;
    HdPrimTypeTokens.basisCurves;
    HdPrimTypeTokens.points;
    HdPrimTypeTokens.volume ].

Definition SUPPORTED_SPRIM_TYPES : list TfToken :=
  [ HdPrimTypeTokens.camera;
    HdPrimTypeTokens.material;
    HdPrimTypeTokens.distantLight;
    HdPrimTypeTokens.domeLight;
    HdPrimTypeTokens.light;
    HdPrimTypeTokens.lightFilter;
    HdPrimTypeTokens.rectLight;
    HdPrimTypeTokens.diskLight;
    HdPrimTypeTokens.cylinderLight;
    HdPrimTypeTokens.sphereLight;
    HdPrimTypeTokens.pluginLight;
    HdPrimTypeTokens.extComputation;
    HdPrimTypeTokens.coordSys;
    _tokens.prmanParams ].

Definition SUPPORTED_BPRIM_TYPES : list TfToken :=
  [ HdPrimTypeTokens.renderBuffer;
    _tokens.openvdbAsset;
    _tokens.field3dAsset ].

(** [tolower] in the C locale. *)
Definition tolower (c : ascii) : ascii :=
  let n := nat_of_ascii c in
  if ((65 <=? n) && (n <=? 90))%nat then ascii_of_nat (n + 32) else c.

Fixpoint _ToLower (s : string) : string :=
  match s with
  | EmptyString => EmptyString
  | String c rest => String (tolower c) (_ToLower rest)
  end.

(** Modelled from the spec: [HdRenderDelegate::GetRenderSetting<T>(key,
    default)] (pxr/imaging/hd/renderDelegate.h) reads "a static
    configuration flag ... from settings": the value stored under the key
    when it holds a [T], the default otherwise. *)
Definition GetRenderSetting_bool (k : TfToken) (def : bool) (w : World)
    : bool :=
  match _settingsMap (this w) !! k with
  | Some (VtBool b) => b
  | _ => def
  end.

Definition GetRenderSetting_string (k : TfToken) (def : string)
    (m : gmap string VtValue) : string :=
  match m !! k with
  | Some (VtString s) => s
  | _ => def
  end.

(** Modelled from the spec: [HdRenderDelegate::_PopulateDefaultSettings]
    (pxr/imaging/hd/renderDelegate.cpp): each descriptor seeds the settings
    map with its default where the map has no entry for its key yet. *)
Definition _PopulateDefaultSettings
    (descriptors : list HdRenderSettingDescriptor)
    (d : HdPrmanRenderDelegate) : HdPrmanRenderDelegate :=
  mkDelegate
    (foldl (fun m desc =>
              match m !! key desc with
              | Some _ => m
              | None => <[key desc := defaultValue desc]> m
              end)
           (_settingsMap d) descriptors)
    (_settingsVersion d) (_settingDescriptors d) (_renderParam d).

Definition IsInteractive (w : World) : bool :=
  GetRenderSetting_bool HdRenderSettingsTokens.enableInteractive true w.

(** [_settingDescriptors.push_back(desc)]. *)
Definition push_back_descriptor (desc : HdRenderSettingDescriptor)
    (d : HdPrmanRenderDelegate) : HdPrmanRenderDelegate :=
  mkDelegate (_settingsMap d) (_settingsVersion d)
             (_settingDescriptors d ++ [desc]) (_renderParam d).

(** [0.001f] in binary32. *)
Definition pixelVariance_bits : Z := 0x3A83126F.

(** [_Initialize].  [_renderParam->Begin(this)] and the resource registry
    touch none of the members kept here. *)
Definition _Initialize (env : Environment) (d : HdPrmanRenderDelegate)
    : HdPrmanRenderDelegate :=
  let integratorEnv := TfGetenv env "HD_PRMAN_INTEGRATOR" in
  let integrator :=
    if negb (integratorEnv =? "")%string then integratorEnv
    else HdPrmanIntegratorTokens.PxrPathTracer in
  let maxSamples := TfGetenvInt env "HD_PRMAN_MAX_SAMPLES" 64 in
  let d := push_back_descriptor
             (mkDescriptor "Integrator"
                HdPrmanRenderSettingsTokens.integratorName
                (VtString integrator)) d in
  let d :=
    if HD_PRMAN_ENABLE_QUICKINTEGRATE env then
      let interactiveIntegrator :=
        HdPrmanIntegratorTokens.PxrDirectLighting in
      let d := push_back_descriptor
                 (mkDescriptor "Interactive Integrator"
                    HdPrmanRenderSettingsTokens.interactiveIntegrator
                    (VtString interactiveIntegrator)) d in
      push_back_descriptor
        (mkDescriptor "Interactive Integrator Timeout (ms)"
           HdPrmanRenderSettingsTokens.interactiveIntegratorTimeout
           (VtInt 200)) d
    else d in
  let d := push_back_descriptor
             (mkDescriptor "Max Samples"
                HdRenderSettingsTokens.convergedSamplesPerPixel
                (VtInt maxSamples)) d in
  let d := push_back_descriptor
             (mkDescriptor "Variance Threshold"
                HdRenderSettingsTokens.convergedVariance
                (VtFloat pixelVariance_bits)) d in
  let d := push_back_descriptor
             (mkDescriptor "Riley variant"
                HdPrmanRenderSettingsTokens.rileyVariant
                (VtString (TfGetenv env "RILEY_VARIANT"))) d in
  let d := push_back_descriptor
             (mkDescriptor "Disable motion blur"
                HdPrmanRenderSettingsTokens.disableMotionBlur
                (VtBool false)) d in
  _PopulateDefaultSettings (_settingDescriptors d) d.

(** The constructor: the base class takes the settings map, the render
    param is made for the lower-cased variant name, then [_Initialize] runs.
    Modelled from the spec: the initial values set by the constructors of
    [HdRenderDelegate] and [HdPrman_RenderParam], which are not part of the
    sources at hand: the "version counter" starts at 1, the scene version
    and the "light count" at 0, and nothing is rendering. *)
Definition HdPrmanRenderDelegate_new (env : Environment)
    (settingsMap : gmap string VtValue) : HdPrmanRenderDelegate :=
  _Initialize env
    (mkDelegate settingsMap 1 []
       (mkRenderParam
          (_ToLower
             (GetRenderSetting_string
                HdPrmanRenderSettingsTokens.rileyVariant
                (TfGetenv env "RILEY_VARIANT") settingsMap))
          0 0 false false)).

Definition GetRenderSettingsMap (w : World) : gmap string VtValue :=
  _settingsMap (this w).

Definition GetRenderSettingDescriptors (w : World)
    : list HdRenderSettingDescriptor :=
  _settingDescriptors (this w).

Definition GetSupportedRprimTypes (w : World) : list TfToken :=
  SUPPORTED_RPRIM_TYPES.

Definition GetSupportedSprimTypes (w : World) : list TfToken :=
  SUPPORTED_SPRIM_TYPES.

Definition GetSupportedBprimTypes (w : World) : list TfToken :=
  SUPPORTED_BPRIM_TYPES.

(** *** Prim factories *)

(** [new T(...)]: the object is placed at an address not in use and the
    address is returned. *)
Definition new_rprim (obj : HdRprim) (w : World) : positive * World :=
  let p := fresh (dom (rprims w)) in
  (p, set_rprims (<[p := obj]> (rprims w)) w).

Definition new_sprim (obj : HdSprim) (w : World) : positive * World :=
  let p := fresh (dom (sprims w)) in
  (p, set_sprims (<[p := obj]> (sprims w)) w).

Definition new_bprim (obj : HdBprim) (w : World) : positive * World :=
  let p := fresh (dom (bprims w)) in
  (p, set_bprims (<[p := obj]> (bprims w)) w).

(** [return new T(...)]. *)
Definition return_new {A : Type} (r : positive * A) : option positive * A :=
  (Some (fst r), snd r).

Definition CreateRprim (typeId : TfToken) (rprimId : SdfPath) (w : World)
    : option positive * World :=
  if (typeId =? HdPrimTypeTokens.mesh)%string then
    return_new (new_rprim (HdPrman_Mesh rprimId) w)
  else if (typeId =? HdPrimTypeTokens.basisCurves)%string then
    return_new (new_rprim (HdPrman_BasisCurves rprimId) w)
  else if (typeId =? HdPrimTypeTokens.points)%string then
    return_new (new_rprim (HdPrman_Points rprimId) w)
  else if (typeId =? HdPrimTypeTokens.volume)%string then
    return_new (new_rprim (HdPrman_Volume rprimId) w)
  else
    (None, TF_CODING_ERROR ("Unknown Rprim Type " +:+ typeId) w).

(** [delete rPrim]; deleting what is not a live object is undefined. *)
Definition DestroyRprim (rPrim : positive) (w : World) : option World :=
  match rprims w !! rPrim with
  | Some _ => Some (set_rprims (delete rPrim (rprims w)) w)
  | None => None
  end.

(** The condition of the light branch of [CreateSprim] and
    [CreateFallbackSprim]. *)
Definition is_light_typeId (typeId : TfToken) : bool :=
  (typeId =? HdPrimTypeTokens.light)%string ||
  (typeId =? HdPrimTypeTokens.distantLight)%string ||
  (typeId =? HdPrimTypeTokens.domeLight)%string ||
  (typeId =? HdPrimTypeTokens.rectLight)%string ||
  (typeId =? HdPrimTypeTokens.diskLight)%string ||
  (typeId =? HdPrimTypeTokens.cylinderLight)%string ||
  (typeId =? HdPrimTypeTokens.sphereLight)%string ||
  (typeId =? HdPrimTypeTokens.pluginLight)%string.

Definition CreateSprim (typeId : TfToken) (sprimId : SdfPath) (w : World)
    : option positive * World :=
  if (typeId =? HdPrimTypeTokens.camera)%string then
    return_new (new_sprim (HdPrmanCamera sprimId) w)
  else if (typeId =? HdPrimTypeTokens.material)%string then
    return_new (new_sprim (HdPrmanMaterial sprimId) w)
  else if (typeId =? HdPrimTypeTokens.coordSys)%string then
    return_new (new_sprim (HdPrmanCoordSys sprimId) w)
  else if (typeId =? HdPrimTypeTokens.lightFilter)%string then
    return_new (new_sprim (HdPrmanLightFilter sprimId typeId) w)
  else if is_light_typeId typeId then
    let sprim := HdPrmanLight sprimId typeId in
    let '(p, w) := new_sprim sprim w in
    (* Disregard fallback prims in count. *)
    let w :=
      if negb (HdSprim_GetId sprim =? SdfPath_EmptyPath)%string then
        set_this (set_renderParam IncreaseSceneLightCount) w
      else w in
    (Some p, w)
  else if (typeId =? HdPrimTypeTokens.extComputation)%string then
    return_new (new_sprim (HdExtComputation sprimId) w)
  else if (typeId =? _tokens.prmanParams)%string then
    return_new (new_sprim (HdPrmanParamsSetter sprimId) w)
  else
    (None, TF_CODING_ERROR ("Unknown Sprim Type " +:+ typeId) w).

Definition CreateFallbackSprim (typeId : TfToken) (w : World)
    : option positive * World :=
  if (typeId =? HdPrimTypeTokens.camera)%string then
    return_new (new_sprim (HdPrmanCamera SdfPath_EmptyPath) w)
  else if (typeId =? HdPrimTypeTokens.material)%string then
    return_new (new_sprim (HdPrmanMaterial SdfPath_EmptyPath) w)
  else if (typeId =? HdPrimTypeTokens.coordSys)%string then
    return_new (new_sprim (HdPrmanCoordSys SdfPath_EmptyPath) w)
  else if (typeId =? HdPrimTypeTokens.lightFilter)%string then
    return_new (new_sprim (HdPrmanLightFilter SdfPath_EmptyPath typeId) w)
  else if is_light_typeId typeId then
    return_new (new_sprim (HdPrmanLight SdfPath_EmptyPath typeId) w)
  else if (typeId =? HdPrimTypeTokens.extComputation)%string then
    return_new (new_sprim (HdExtComputation SdfPath_EmptyPath) w)
  else if (typeId =? _tokens.prmanParams)%string then
    return_new (new_sprim (HdPrmanParamsSetter SdfPath_EmptyPath) w)
  else
    (None, TF_CODING_ERROR ("Unknown Sprim Type " +:+ typeId) w).

(** [DestroySprim]: the pointer is dereferenced for [GetId()], so it has
    to point to a live Sprim; anything else is undefined. *)
Definition DestroySprim (sprim : positive) (w : World) : option World :=
  match sprims w !! sprim with
  | Some obj =>
      (* Disregard fallback prims in count. *)
      let w :=
        if negb (HdSprim_GetId obj =? SdfPath_EmptyPath)%string then
          set_this (set_renderParam DecreaseSceneLightCount) w
        else w in
      Some (set_sprims (delete sprim (sprims w)) w)
  | None => None
  end.

Definition CreateBprim (typeId : TfToken) (bprimId : SdfPath) (w : World)
    : option positive * World :=
  if (typeId =? _tokens.openvdbAsset)%string ||
     (typeId =? _tokens.field3dAsset)%string then
    return_new (new_bprim (HdPrman_Field typeId bprimId) w)
  else if (typeId =? HdPrimTypeTokens.renderBuffer)%string then
    return_new (new_bprim (HdPrmanRenderBuffer bprimId) w)
  else
    (None, TF_CODING_ERROR ("Unknown Bprim Type " +:+ typeId) w).

Definition CreateFallbackBprim (typeId : TfToken) (w : World)
    : option positive * World :=
  if (typeId =? _tokens.openvdbAsset)%string ||
     (typeId =? _tokens.field3dAsset)%string then
    return_new (new_bprim (HdPrman_Field typeId SdfPath_EmptyPath) w)
  else if (typeId =? HdPrimTypeTokens.renderBuffer)%string then
    return_new (new_bprim (HdPrmanRenderBuffer SdfPath_EmptyPath) w)
  else
    (None, TF_CODING_ERROR ("Unknown Bprim Type " +:+ typeId) w).

Definition DestroyBprim (bPrim : positive) (w : World) : option World :=
  match bprims w !! bPrim with
  | Some _ => Some (set_bprims (delete bPrim (bprims w)) w)
  | None => None
  end.

(** *** Render settings *)

(** [_settingsVersion++]. *)
Definition settingsVersion_incr (d : HdPrmanRenderDelegate)
    : HdPrmanRenderDelegate :=
  mkDelegate (_settingsMap d) (uint_incr (_settingsVersion d))
             (_settingDescriptors d) (_renderParam d).

(** [_settingsMap[key] = value]. *)
Definition settingsMap_assign (k : TfToken) (value : VtValue)
    (d : HdPrmanRenderDelegate) : HdPrmanRenderDelegate :=
  mkDelegate (<[k := value]> (_settingsMap d)) (_settingsVersion d)
             (_settingDescriptors d) (_renderParam d).

Definition SetRenderSetting (k : TfToken) (value : VtValue) (w : World)
    : World :=
  (* update settings version only if a setting actually changed *)
  let w :=
    match _settingsMap (this w) !! k with
    | Some prev =>
        if VtValue_ne value prev then set_this settingsVersion_incr w
        else w
    | None => set_this settingsVersion_incr w
    end in
  let w := set_this (settingsMap_assign k value) w in
  if debug_HD_RENDER_SETTINGS w then cout (RenderSettingLine k value) w
  else w.

(** *** Render lifecycle *)

Definition IsStopSupported (w : World) : bool :=
  if IsInteractive w then true else false.

Definition IsStopped (w : World) : bool :=
  if IsInteractive w then negb (IsRendering (_renderParam (this w)))
  else true.

Definition Stop (blocking : bool) (w : World) : bool * World :=
  if IsInteractive w then
    let w := set_this (set_renderParam (StopRender blocking)) w in
    (negb (IsRendering (_renderParam (this w))), w)
  else (true, w).

Definition Restart (w : World) : bool * World :=
  if IsInteractive w then
    (* Next call into HdPrman_RenderPass::_Execute will do a StartRender *)
    (true, set_this (set_renderParam sceneVersion_incr) w)
  else (false, w).

(** ** wrapEngine.cpp *)

(** [CameraUtilConformWindowPolicy] (pxr/imaging/cameraUtil/conformWindow.h);
    the wrapper names [CameraUtilFit] only. *)
Inductive CameraUtilConformWindowPolicy : Type :=
| CameraUtilMatchVertically
| CameraUtilMatchHorizontally
| CameraUtilFit
| CameraUtilCrop
| CameraUtilDontConform.

#[global] Instance CameraUtilConformWindowPolicy_eq_dec :
  EqDecision CameraUtilConformWindowPolicy.
Proof. solve_decision. Defined.

(** [HdInstancerContext]: a vector of (instancer path, instance index). *)
Abbreviation HdInstancerContext := (list (SdfPath * Z)) (only parsing).

(** The Python objects a caller can hand to [SetOverrideWindowPolicy]:
    a wrapped policy value, or something else ([None], a number, text). *)
Inductive PyObject : Type :=
| PyNone
| PyBool (b : bool)
| PyLong (i : Z)
| PyUnicode (s : string)
| PyConformWindowPolicy (policy : CameraUtilConformWindowPolicy).

(** [extract<CameraUtilConformWindowPolicy>]: [check()] holds for a wrapped
    policy value, which [operator()] then yields. *)
Definition extract_CameraUtilConformWindowPolicy (pyObj : PyObject)
    : option CameraUtilConformWindowPolicy :=
  match pyObj with
  | PyConformWindowPolicy policy => Some policy
  | _ => None
  end.

Section WrapEngine.

(** Types that only pass through the wrapper. *)
Context {GfMatrix4d UsdPrim UsdImagingGLRenderParams double : Type}.

(** [GfVec3d]; [GfVec3d(v)] sets every component to [v]. *)
Record GfVec3d : Type := mkGfVec3d {
  vec_x : double;
  vec_y : double;
  vec_z : double
}.

Definition GfVec3d_fill (v : double) : GfVec3d := mkGfVec3d v v v.

(** The locals of [_TestIntersection] whose addresses are passed to the
    engine. *)
Record IntersectionOut : Type := mkIntersectionOut {
  hitPoint : GfVec3d;
  hitNormal : GfVec3d;
  hitPrimPath : SdfPath;
  hitInstancerPath : SdfPath;
  hitInstanceIndex : Z;
  hitInstancerContext : HdInstancerContext
}.

(** The two members of [UsdImagingGLEngine] the wrapper functions call.
    [TestIntersection] may write through any of its out-pointers and
    returns whether something was hit. *)
Class UsdImagingGLEngine (Engine : Type) : Type := {
  double_zero : double;
  TestIntersection :
    Engine -> GfMatrix4d -> GfMatrix4d -> UsdPrim ->
    UsdImagingGLRenderParams -> IntersectionOut ->
    bool * IntersectionOut * Engine;
  SetOverrideWindowPolicy :
    Engine -> bool * CameraUtilConformWindowPolicy -> Engine
}.

(** The tuple [boost::python::make_tuple] builds:
    (hitPoint, hitNormal, hitPrimPath, hitInstanceIndex, topLevelPath,
     topLevelInstanceIndex). *)
Definition IntersectionTuple : Type :=
  GfVec3d * GfVec3d * SdfPath * Z * SdfPath * Z.

Context {Engine : Type} `{!UsdImagingGLEngine Engine}.

(** The locals as declared: [hitPoint(0)], [hitNormal(0)], two default
    paths, [hitInstanceIndex = -1] and an empty context. *)
Definition _TestIntersection_locals : IntersectionOut :=
  mkIntersectionOut (GfVec3d_fill double_zero) (GfVec3d_fill double_zero)
                    SdfPath_EmptyPath SdfPath_EmptyPath (-1) [].

Definition _TestIntersection (self : Engine)
    (viewMatrix projectionMatrix : GfMatrix4d) (root : UsdPrim)
    (params : UsdImagingGLRenderParams) : IntersectionTuple * Engine :=
  let '(_, out, self) :=
    TestIntersection self viewMatrix projectionMatrix root params
                     _TestIntersection_locals in
  let '(topLevelPath, topLevelInstanceIndex) :=
    match hitInstancerContext out with
    | entry :: _ => (fst entry, snd entry)
    | [] => (SdfPath_EmptyPath, -1)
    end in
  ((hitPoint out, hitNormal out, hitPrimPath out, hitInstanceIndex out,
    topLevelPath, topLevelInstanceIndex), self).

Definition _SetOverrideWindowPolicy (self : Engine) (pyObj : PyObject)
    : Engine :=
  match extract_CameraUtilConformWindowPolicy pyObj with
  | Some policy => SetOverrideWindowPolicy self (true, policy)
  | None => SetOverrideWindowPolicy self (false, CameraUtilFit)
  end.

End WrapEngine.

(** ** Outcomes of a factory call *)

(** The call returned a pointer to a live object of the requested type and
    reported nothing. *)
Definition created {Obj : Type} (heap : World -> gmap positive Obj)
    (type_of : Obj -> option TfToken) (typeId : TfToken) (w : World)
    (result : option positive * World) : Prop :=
  ∃ p obj, fst result = Some p ∧ heap (snd result) !! p = Some obj ∧
           type_of obj = Some typeId ∧
           diagnostics (snd result) = diagnostics w.

(** The call returned [nullptr], posted one coding error with the given
    message and did nothing else. *)
Definition rejected (message : string) (w : World)
    (result : option positive * World) : Prop :=
  fst result = None ∧
  diagnostics (snd result) = (diagnostics w ++ [TfCodingError message])%list ∧
  this (snd result) = this w ∧
  rprims (snd result) = rprims w ∧ sprims (snd result) = sprims w ∧
  bprims (snd result) = bprims w.

(** ** Runs of the Sprim factory *)

(** A world right after construction of the delegate: nothing allocated,
    nothing reported, nothing printed. *)
Definition World_new (env : Environment) (settingsMap : gmap string VtValue)
    (debug : bool) : World :=
  mkWorld (HdPrmanRenderDelegate_new env settingsMap) ∅ ∅ ∅ [] debug [].

(** One call of the host into the Sprim factory. *)
Inductive SprimCall : Type :=
| Call_CreateSprim (typeId : TfToken) (sprimId : SdfPath)
| Call_CreateFallbackSprim (typeId : TfToken)
| Call_DestroySprim (sprim : positive).

Definition SprimCall_step (call : SprimCall) (w : World) : option World :=
  match call with
  | Call_CreateSprim typeId sprimId => Some (snd (CreateSprim typeId sprimId w))
  | Call_CreateFallbackSprim typeId => Some (snd (CreateFallbackSprim typeId w))
  | Call_DestroySprim sprim => DestroySprim sprim w
  end.

(** A sequence of calls; [None] when a destroy call is handed a pointer
    that is not live. *)
Fixpoint SprimCall_run (calls : list SprimCall) (w : World) : option World :=
  match calls with
  | [] => Some w
  | call :: rest =>
      match SprimCall_step call w with
      | Some w' => SprimCall_run rest w'
      | None => None
      end
  end.

(** The tag of a create call is one of the light tags; a destroy call
    carries no tag. *)
Definition SprimCall_light (call : SprimCall) : Prop :=
  match call with
  | Call_CreateSprim typeId _ => is_light_typeId typeId = true
  | Call_CreateFallbackSprim typeId => is_light_typeId typeId = true
  | Call_DestroySprim _ => True
  end.

(** A live light that is not a fallback instance. *)
Definition nonfallback_light (sprim : HdSprim) : bool :=
  match sprim with
  | HdPrmanLight id _ => negb (id =? SdfPath_EmptyPath)%string
  | _ => false
  end.

Definition live_nonfallback_lights (w : World) : nat :=
  size (filter (fun entry => nonfallback_light (snd entry) = true) (sprims w)).

Definition sceneLightCount (w : World) : Z :=
  _sceneLightCount (_renderParam (this w)).

(** The live Sprims are lights, and the light count is the number of live
    non-fallback lights as an [int]. *)
Definition lights_accounted (w : World) : Prop :=
  (∀ p obj, sprims w !! p = Some obj -> ∃ id t, obj = HdPrmanLight id t) ∧
  sceneLightCount w = int_wrap (Z.of_nat (live_nonfallback_lights w)).

(** ** An engine for examples *)

(** An engine whose intersection test reports a canned result and which
    keeps the override window policy it was last given. *)
Record CannedEngine : Type := mkCannedEngine {
  canned_hit : option (@IntersectionOut Z);
  canned_policy : bool * CameraUtilConformWindowPolicy
}.

#[global] Instance CannedEngine_engine :
  @UsdImagingGLEngine unit unit unit Z CannedEngine := {
  double_zero := 0;
  TestIntersection self _ _ _ _ locals :=
    match canned_hit self with
    | Some out => (true, out, self)
    | None => (false, locals, self)
    end;
  SetOverrideWindowPolicy self policy :=
    mkCannedEngine (canned_hit self) policy
}.

(** ** Further members of renderDelegate.cpp *)

Definition CommitResources (w : World) : World :=
  (* Do nothing *)
  w.

(** The AOV names [GetDefaultAovDescriptor] compares with; as for the prim
    type tags, each token of [HdAovTokens] has its identifier as text. *)
Module HdAovTokens.
Definition color : TfToken := "color".
Definition depth : TfToken := "depth".
Definition primId : TfToken := "primId".
Definition instanceId : TfToken := "instanceId".
Definition elementId : TfToken := "elementId".
End HdAovTokens.

(** The [HdFormat] values the function names. *)
Inductive HdFormat : Type :=
| HdFormatFloat32
| HdFormatFloat32Vec3
| HdFormatFloat32Vec4
| HdFormatInt32.

(** The clear value of an AOV: [VtValue(1.0f)] and [VtValue(-1)] as for a
    render setting, [VtValue(GfVec3f(v))] and [VtValue(GfVec4f(v))] by the
    binary32 encoding of the component they are filled with. *)
Inductive HdAovClearValue : Type :=
| ClearScalar (v : VtValue)
| ClearVec3f (fill : Z)
| ClearVec4f (fill : Z).

(** [HdAovDescriptor]: default-constructed, or constructed from a format,
    the multi-sampling flag and a clear value. *)
Inductive HdAovDescriptor : Type :=
| HdAovDescriptor_default
| HdAovDescriptor_of (format : HdFormat) (multiSampled : bool)
                     (clearValue : HdAovClearValue).

(** [0.0f] and [1.0f] in binary32. *)
Definition float_zero_bits : Z := 0.
Definition float_one_bits : Z := 0x3F800000.

Definition GetDefaultAovDescriptor (name : TfToken) (w : World)
    : HdAovDescriptor :=
  if IsInteractive w then
    if (name =? HdAovTokens.color)%string then
      HdAovDescriptor_of HdFormatFloat32Vec4 false (ClearVec4f float_zero_bits)
    else if (name =? HdAovTokens.depth)%string then
      HdAovDescriptor_of HdFormatFloat32 false
                         (ClearScalar (VtFloat float_one_bits))
    else if (name =? HdAovTokens.primId)%string ||
            (name =? HdAovTokens.instanceId)%string ||
            (name =? HdAovTokens.elementId)%string then
      HdAovDescriptor_of HdFormatInt32 false (ClearScalar (VtInt (-1)))
    else
      HdAovDescriptor_of HdFormatFloat32Vec3 false (ClearVec3f float_zero_bits)
  else HdAovDescriptor_default.

(** The clear value is of the kind the format stores. *)
Definition clear_value_fits (format : HdFormat) (clearValue : HdAovClearValue)
    : bool :=
  match format, clearValue with
  | HdFormatFloat32, ClearScalar (VtFloat _) => true
  | HdFormatFloat32Vec3, ClearVec3f _ => true
  | HdFormatFloat32Vec4, ClearVec4f _ => true
  | HdFormatInt32, ClearScalar (VtInt _) => true
  | _, _ => false
  end.

Section RenderPass.

(** [HdRenderIndex *] and [HdRprimCollection] pass through to the render
    pass. *)
Context {HdRenderIndex HdRprimCollection : Type}.

(** [HdPrman_RenderPass(index, collection, _renderParam)]; the render param
    is the delegate's own, shared. *)
Record HdPrman_RenderPass : Type := mkRenderPass {
  pass_index : HdRenderIndex;
  pass_collection : HdRprimCollection
}.

(** [CreateRenderPass] on the member it reads and writes, [_renderPass];
    [None] is the empty shared pointer. *)
Definition CreateRenderPass (index : HdRenderIndex)
    (collection : HdRprimCollection)
    (_renderPass : option HdPrman_RenderPass)
    : HdPrman_RenderPass * option HdPrman_RenderPass :=
  let _renderPass :=
    match _renderPass with
    | None => Some (mkRenderPass index collection)
    | Some pass => Some pass
    end in
  (default (mkRenderPass index collection) _renderPass, _renderPass).

(** The passes returned by a sequence of [CreateRenderPass] calls. *)
Fixpoint CreateRenderPass_run
    (calls : list (HdRenderIndex * HdRprimCollection))
    (_renderPass : option HdPrman_RenderPass) : list HdPrman_RenderPass :=
  match calls with
  | [] => []
  | (index, collection) :: rest =>
      let '(pass, _renderPass) := CreateRenderPass index collection _renderPass in
      pass :: CreateRenderPass_run rest _renderPass
  end.

End RenderPass.

(** ** Further notions for runs *)

(** An upper-case letter in the C locale. *)
Definition isupper (c : ascii) : bool :=
  let n := nat_of_ascii c in ((65 <=? n) && (n <=? 90))%nat.

Fixpoint string_forallb (f : ascii -> bool) (s : string) : bool :=
  match s with
  | EmptyString => true
  | String c rest => f c && string_forallb f rest
  end.

(** Whether [SetRenderSetting(k, value)] finds a change: no entry under
    [k], or an entry that compares unequal to [value]. *)
Definition setting_changes (k : TfToken) (value : VtValue)
    (m : gmap string VtValue) : bool :=
  match m !! k with
  | Some prev => VtValue_ne value prev
  | None => true
  end.

(** [n] calls of [Restart()] in a row. *)
Definition Restart_times (n : nat) (w : World) : World :=
  Nat.iter n (fun w => snd (Restart w)) w.

(** A sequence of [SetRenderSetting] calls. *)
Definition SetRenderSetting_run (calls : list (TfToken * VtValue)) (w : World)
    : World :=
  foldl (fun w call => SetRenderSetting (fst call) (snd call) w) w calls.

(** A Sprim that was not counted when it was made, a light with the empty
    path or another Sprim, and that [DestroySprim] counts all the same
    because its path is not empty. *)
Definition miscounted (sprim : HdSprim) : bool :=
  negb (nonfallback_light sprim) &&
  negb (HdSprim_GetId sprim =? SdfPath_EmptyPath)%string.

(** The number of destroy calls of a run that hit such a Sprim. *)
Fixpoint SprimCall_miscounts (calls : list SprimCall) (w : World) : nat :=
  match calls with
  | [] => 0
  | call :: rest =>
      match SprimCall_step call w with
      | Some w' =>
          (match call with
           | Call_DestroySprim sprim =>
               match sprims w !! sprim with
               | Some obj => if miscounted obj then 1 else 0
               | None => 0
               end
           | _ => 0
           end + SprimCall_miscounts rest w')%nat
      | None => 0%nat
      end
  end.

(** The coding error a call of the Sprim factory posts, if any. *)
Definition SprimCall_diagnostics (call : SprimCall) : list TfDiagnostic :=
  match call with
  | Call_CreateSprim typeId _ | Call_CreateFallbackSprim typeId =>
      if bool_decide (typeId ∈ SUPPORTED_SPRIM_TYPES) then []
      else [TfCodingError ("Unknown Sprim Type " +:+ typeId)]
  | Call_DestroySprim _ => []
  end.

(** * Properties *)

(** ** Machine integers *)

Lemma uint_incr_changes (z : Z) : uint_incr z ≠ z.
Proof.
  unfold uint_incr, uint_wrap, UINT_MODULUS.
  pose proof (Z.mod_pos_bound (z + 1) (2 ^ 32) ltac:(lia)) as Hb.
  intros Heq.
  assert (Hz : 0 <= z < 2 ^ 32) by lia.
  destruct (decide (z + 1 < 2 ^ 32)) as [Hlt | Hge].
  - rewrite Z.mod_small in Heq; lia.
  - assert (z + 1 = 2 ^ 32) as Hmax by lia.
    rewrite Hmax, Z.mod_same in Heq; lia.
Qed.

Lemma uint_incr_small (z : Z) :
  0 <= z < UINT_MODULUS - 1 -> uint_incr z = z + 1.
Proof.
  unfold uint_incr, uint_wrap, UINT_MODULUS. intros Hz.
  apply Z.mod_small. lia.
Qed.

Lemma int_wrap_range (z : Z) : INT_MIN <= int_wrap z <= INT_MAX.
Proof.
  unfold int_wrap, INT_MIN, INT_MAX.
  pose proof (Z.mod_pos_bound (z + 2 ^ 31) (2 ^ 32) ltac:(lia)). lia.
Qed.

Lemma int_wrap_small (z : Z) : INT_MIN <= z <= INT_MAX -> int_wrap z = z.
Proof.
  unfold int_wrap, INT_MIN, INT_MAX. intros Hz.
  rewrite Z.mod_small; lia.
Qed.

Lemma int_incr_wrap (z : Z) : int_incr (int_wrap z) = int_wrap (z + 1).
Proof.
  unfold int_incr, int_wrap.
  replace ((z + 2 ^ 31) mod 2 ^ 32 - 2 ^ 31 + 1 + 2 ^ 31)
    with ((z + 2 ^ 31) mod 2 ^ 32 + 1) by lia.
  replace (z + 1 + 2 ^ 31) with ((z + 2 ^ 31) + 1) by lia.
  rewrite Zplus_mod_idemp_l. reflexivity.
Qed.

Lemma int_decr_wrap (z : Z) : int_decr (int_wrap z) = int_wrap (z - 1).
Proof.
  unfold int_decr, int_wrap.
  replace ((z + 2 ^ 31) mod 2 ^ 32 - 2 ^ 31 - 1 + 2 ^ 31)
    with ((z + 2 ^ 31) mod 2 ^ 32 + (- 1)) by lia.
  replace (z - 1 + 2 ^ 31) with ((z + 2 ^ 31) + (- 1)) by lia.
  rewrite Zplus_mod_idemp_l. reflexivity.
Qed.

Lemma int_incr_small (z : Z) :
  INT_MIN <= z < INT_MAX -> int_incr z = z + 1.
Proof.
  intros Hz. unfold int_incr. apply int_wrap_small.
  unfold INT_MIN, INT_MAX in *. lia.
Qed.

Lemma int_decr_incr (z : Z) :
  INT_MIN <= z <= INT_MAX -> int_decr (int_incr z) = z.
Proof.
  intros Hz. unfold int_incr.
  rewrite int_decr_wrap. replace (z + 1 - 1) with z by lia.
  by apply int_wrap_small.
Qed.

(** ** Render settings *)



(** A value is unequal to itself exactly when it holds a NaN. *)
Lemma VtValue_ne_self (v : VtValue) : VtValue_ne v v = VtValue_is_nan v.
Proof.
  unfold VtValue_ne. destruct v; cbn.
  - reflexivity.
  - by rewrite String.eqb_refl.
  - by destruct b.
  - by rewrite Z.eqb_refl.
  - unfold float32_eqb. rewrite Z.eqb_refl, orb_true_r.
    by destruct (float32_is_nan bits).
Qed.

Lemma SetRenderSetting_this (k : TfToken) (value : VtValue) (w : World) :
  this (SetRenderSetting k value w) =
  settingsMap_assign k value
    (match _settingsMap (this w) !! k with
     | Some prev =>
         if VtValue_ne value prev then settingsVersion_incr (this w)
         else this w
     | None => settingsVersion_incr (this w)
     end).
Proof.
  unfold SetRenderSetting.
  destruct (_settingsMap (this w) !! k) as [prev|];
    [destruct (VtValue_ne value prev)|];
    cbn; destruct (debug_HD_RENDER_SETTINGS w); reflexivity.
Qed.

Lemma SetRenderSetting_stored (k : TfToken) (value : VtValue) (w : World) :
  _settingsMap (this (SetRenderSetting k value w)) !! k = Some value.
Proof.
  rewrite SetRenderSetting_this. cbn. apply lookup_insert_eq.
Qed.


Lemma SetRenderSetting_same (k : TfToken) (value prev : VtValue) (w : World) :
  _settingsMap (this w) !! k = Some prev ->
  VtValue_ne value prev = false ->
  _settingsVersion (this (SetRenderSetting k value w)) =
  _settingsVersion (this w).
Proof.
  intros Hk Hsame. by rewrite SetRenderSetting_this, Hk, Hsame.
Qed.




Example VtValue_ne_floats :
  VtValue_ne (VtFloat 0x7FC00000) (VtFloat 0x7FC00000) = true ∧
  VtValue_ne (VtFloat 0) (VtFloat 0x80000000) = false ∧
  VtValue_ne (VtFloat 0x3A83126F) (VtFloat 0x3A83126F) = false ∧
  VtValue_ne (VtInt 1) (VtFloat 0x3F800000) = true.
Proof. vm_compute. done. Qed.

Example SetRenderSetting_thrice :
  let w := World_new (mkEnvironment ∅ ∅ false) ∅ true in
  let w3 := SetRenderSetting "k" (VtBool true)
              (SetRenderSetting "k" (VtBool false)
                 (SetRenderSetting "k" (VtBool false) w)) in
  _settingsVersion (this w) = 1 ∧ _settingsVersion (this w3) = 3 ∧
  stdout w3 = [RenderSettingLine "k" (VtBool false);
               RenderSettingLine "k" (VtBool false);
               RenderSettingLine "k" (VtBool true)].
Proof. vm_compute. done. Qed.

(** ** Initialization *)

Lemma _PopulateDefaultSettings_descriptors
    (descriptors : list HdRenderSettingDescriptor)
    (d : HdPrmanRenderDelegate) :
  _settingDescriptors (_PopulateDefaultSettings descriptors d) =
  _settingDescriptors d.
Proof. reflexivity. Qed.

Lemma SetRenderSetting_descriptors (k : TfToken) (value : VtValue) (w : World) :
  GetRenderSettingDescriptors (SetRenderSetting k value w) =
  GetRenderSettingDescriptors w.
Proof.
  unfold GetRenderSettingDescriptors. rewrite SetRenderSetting_this.
  cbn. destruct (_settingsMap (this w) !! k) as [prev|];
    [destruct (VtValue_ne value prev)|]; reflexivity.
Qed.

(** C5.  With the quick-integrate flag set at initialization the descriptor
    list is the five base entries with two more after the first, the
    interactive integrator and its timeout in milliseconds with default
    200, in this order; with the flag unset it is the five base entries.
    The list is fixed by initialization: a query returns what was stored,
    and setting a render setting afterwards does not change it. *)
Theorem Initialize_descriptors
    (env : Environment) (settingsMap : gmap string VtValue) (debug : bool) :
  let integrator :=
    if (TfGetenv env "HD_PRMAN_INTEGRATOR" =? "")%string
    then HdPrmanIntegratorTokens.PxrPathTracer
    else TfGetenv env "HD_PRMAN_INTEGRATOR" in
  let base_integrator :=
    mkDescriptor "Integrator" HdPrmanRenderSettingsTokens.integratorName
                 (VtString integrator) in
  let quick :=
    [ mkDescriptor "Interactive Integrator"
                   HdPrmanRenderSettingsTokens.interactiveIntegrator
                   (VtString HdPrmanIntegratorTokens.PxrDirectLighting);
      mkDescriptor "Interactive Integrator Timeout (ms)"
                   HdPrmanRenderSettingsTokens.interactiveIntegratorTimeout
                   (VtInt 200) ] in
  let base_rest :=
    [ mkDescriptor "Max Samples"
                   HdRenderSettingsTokens.convergedSamplesPerPixel
                   (VtInt (TfGetenvInt env "HD_PRMAN_MAX_SAMPLES" 64));
      mkDescriptor "Variance Threshold"
                   HdRenderSettingsTokens.convergedVariance
                   (VtFloat pixelVariance_bits);
      mkDescriptor "Riley variant" HdPrmanRenderSettingsTokens.rileyVariant
                   (VtString (TfGetenv env "RILEY_VARIANT"));
      mkDescriptor "Disable motion blur"
                   HdPrmanRenderSettingsTokens.disableMotionBlur
                   (VtBool false) ] in
  let w := World_new env settingsMap debug in
  GetRenderSettingDescriptors w =
    (if HD_PRMAN_ENABLE_QUICKINTEGRATE env
     then base_integrator :: quick ++ base_rest
     else base_integrator :: base_rest) ∧
  length (GetRenderSettingDescriptors w) =
    (if HD_PRMAN_ENABLE_QUICKINTEGRATE env then 7 else 5)%nat ∧
  (∀ k value,
     GetRenderSettingDescriptors (SetRenderSetting k value w) =
     GetRenderSettingDescriptors w).
Proof.
  intros integrator base_integrator quick base_rest w.
  assert (Hlist : GetRenderSettingDescriptors w =
    (if HD_PRMAN_ENABLE_QUICKINTEGRATE env
     then base_integrator :: quick ++ base_rest
     else base_integrator :: base_rest)).
  { subst w integrator base_integrator quick base_rest.
    unfold GetRenderSettingDescriptors, World_new, HdPrmanRenderDelegate_new,
      _Initialize.
    cbn [this]. rewrite _PopulateDefaultSettings_descriptors.
    destruct (HD_PRMAN_ENABLE_QUICKINTEGRATE env);
      destruct (TfGetenv env "HD_PRMAN_INTEGRATOR" =? "")%string;
      reflexivity. }
  split; [exact Hlist|]. split.
  - rewrite Hlist. destruct (HD_PRMAN_ENABLE_QUICKINTEGRATE env); reflexivity.
  - intros k value. apply SetRenderSetting_descriptors.
Qed.

Example Initialize_descriptors_quick :
  map key (GetRenderSettingDescriptors
             (World_new (mkEnvironment ∅ ∅ true) ∅ false)) =
  [ "integratorName"; "interactiveIntegrator"; "interactiveIntegratorTimeout";
    "convergedSamplesPerPixel"; "convergedVariance"; "rileyVariant";
    "disableMotionBlur" ].
Proof. reflexivity. Qed.

Example Initialize_descriptors_plain :
  map name (GetRenderSettingDescriptors
              (World_new (mkEnvironment ∅ (<["HD_PRMAN_MAX_SAMPLES" := 16]> ∅) false)
                         ∅ false)) =
  [ "Integrator"; "Max Samples"; "Variance Threshold"; "Riley variant";
    "Disable motion blur" ].
Proof. reflexivity. Qed.

(** ** Render lifecycle *)

(** C6.  In a non-interactive configuration [IsStopped()] is true,
    [Stop(blocking)] returns true for either value of [blocking] and
    [Restart()] returns false, in whatever state earlier calls have left the
    delegate; neither call changes anything. *)
Theorem noninteractive_lifecycle (w : World) (blocking : bool) :
  IsInteractive w = false ->
  IsStopped w = true ∧
  Stop blocking w = (true, w) ∧
  Restart w = (false, w).
Proof.
  intros Hni. unfold IsStopped, Stop, Restart. rewrite Hni. done.
Qed.

Lemma noninteractive_lifecycle_witness :
  let w := World_new (mkEnvironment ∅ ∅ false)
             (<[HdRenderSettingsTokens.enableInteractive := VtBool false]> ∅)
             false in
  IsInteractive w = false ∧
  IsStopped w = true ∧ Stop true w = (true, w) ∧ Restart w = (false, w).
Proof.
  intros w.
  assert (Hni : IsInteractive w = false) by (vm_compute; reflexivity).
  exact (conj Hni (noninteractive_lifecycle w true Hni)).
Defined.

(** C7.  In an interactive configuration [Restart()] returns true and
    advances the scene version by one ([int] arithmetic; plainly +1 below
    [INT_MAX]); it does not touch the render-activity state, the settings
    map, the settings version, the descriptor list, the light count, the
    prims, the diagnostics or the output.  In a non-interactive
    configuration it returns false and changes nothing. *)
Theorem Restart_effect (w : World) :
  (IsInteractive w = true ->
   let w' := snd (Restart w) in
   let rp := _renderParam (this w) in
   let rp' := _renderParam (this w') in
   fst (Restart w) = true ∧
   sceneVersion rp' = int_incr (sceneVersion rp) ∧
   (INT_MIN <= sceneVersion rp < INT_MAX ->
    sceneVersion rp' = sceneVersion rp + 1) ∧
   _rendering rp' = _rendering rp ∧
   _stopRequested rp' = _stopRequested rp ∧
   rileyVariant rp' = rileyVariant rp ∧
   _sceneLightCount rp' = _sceneLightCount rp ∧
   _settingsMap (this w') = _settingsMap (this w) ∧
   _settingsVersion (this w') = _settingsVersion (this w) ∧
   _settingDescriptors (this w') = _settingDescriptors (this w) ∧
   rprims w' = rprims w ∧ sprims w' = sprims w ∧ bprims w' = bprims w ∧
   diagnostics w' = diagnostics w ∧ stdout w' = stdout w ∧
   debug_HD_RENDER_SETTINGS w' = debug_HD_RENDER_SETTINGS w) ∧
  (IsInteractive w = false -> Restart w = (false, w)).
Proof.
  split; intros Hint; unfold Restart; rewrite Hint; [|done].
  cbn. repeat split; try reflexivity.
  intros Hrange. by apply int_incr_small.
Qed.

Lemma Restart_effect_witness :
  let w := World_new (mkEnvironment ∅ ∅ false) ∅ false in
  let w0 := World_new (mkEnvironment ∅ ∅ false)
              (<[HdRenderSettingsTokens.enableInteractive := VtBool false]> ∅)
              false in
  (IsInteractive w = true ∧
   INT_MIN <= sceneVersion (_renderParam (this w)) < INT_MAX ∧
   fst (Restart w) = true ∧
   sceneVersion (_renderParam (this (snd (Restart w)))) =
     sceneVersion (_renderParam (this w)) + 1) ∧
  (IsInteractive w0 = false ∧ Restart w0 = (false, w0)).
Proof.
  intros w w0.
  assert (Hint : IsInteractive w = true) by (vm_compute; reflexivity).
  assert (Hrange : INT_MIN <= sceneVersion (_renderParam (this w)) < INT_MAX)
    by (vm_compute; split; [discriminate | reflexivity]).
  assert (Hni : IsInteractive w0 = false) by (vm_compute; reflexivity).
  destruct (Restart_effect w) as [Hrestart _].
  destruct (Hrestart Hint) as (Hret & _ & Hplus & _).
  destruct (Restart_effect w0) as [_ Hnone].
  exact (conj (conj Hint (conj Hrange (conj Hret (Hplus Hrange))))
              (conj Hni (Hnone Hni))).
Defined.

Example HdPrmanRenderDelegate_new_variant :
  rileyVariant
    (_renderParam
       (HdPrmanRenderDelegate_new
          (mkEnvironment (<["RILEY_VARIANT" := "XPU"]> ∅) ∅ false) ∅)) = "xpu".
Proof. vm_compute. reflexivity. Qed.

Example Restart_twice :
  let w := World_new (mkEnvironment ∅ ∅ false) ∅ false in
  sceneVersion (_renderParam (this (snd (Restart (snd (Restart w)))))) = 2.
Proof. vm_compute. reflexivity. Qed.

(** ** The engine wrapper *)

Section WrapEngineUnfold.

Context {GfMatrix4d UsdPrim UsdImagingGLRenderParams double : Type}.
Context {Engine : Type}.
Context `{!@UsdImagingGLEngine GfMatrix4d UsdPrim UsdImagingGLRenderParams
             double Engine}.

Lemma _TestIntersection_unfold (self : Engine)
    (viewMatrix projectionMatrix : GfMatrix4d) (root : UsdPrim)
    (params : UsdImagingGLRenderParams)
    (hit : bool) (out : IntersectionOut) (self' : Engine) :
  TestIntersection self viewMatrix projectionMatrix root params
                   _TestIntersection_locals = (hit, out, self') ->
  _TestIntersection self viewMatrix projectionMatrix root params =
  ((hitPoint out, hitNormal out, hitPrimPath out, hitInstanceIndex out,
    match hitInstancerContext out with
    | entry :: _ => fst entry
    | [] => SdfPath_EmptyPath
    end,
    match hitInstancerContext out with
    | entry :: _ => snd entry
    | [] => -1
    end), self').
Proof.
  intros Hcall. unfold _TestIntersection. rewrite Hcall.
  destruct (hitInstancerContext out); reflexivity.
Qed.

End WrapEngineUnfold.

Section WrapEngineProperties.

Context {GfMatrix4d UsdPrim UsdImagingGLRenderParams double : Type}.
Context {Engine : Type}.
Context `{!@UsdImagingGLEngine GfMatrix4d UsdPrim UsdImagingGLRenderParams
             double Engine}.

(** C8.  When the engine's intersection test leaves an instancer context
    with a first entry [(path, index)], the tuple handed to the caller has
    [path] and [index] as top-level instancer path and instance index; the
    entries after the first do not reach the tuple: an engine that answers
    the same but for those entries yields the same tuple. *)
Theorem TestIntersection_first_entry
    (self : Engine) (viewMatrix projectionMatrix : GfMatrix4d)
    (root : UsdPrim) (params : UsdImagingGLRenderParams)
    (hit : bool) (out : IntersectionOut) (self' : Engine)
    (path : SdfPath) (index : Z) (rest : HdInstancerContext) :
  TestIntersection self viewMatrix projectionMatrix root params
                   _TestIntersection_locals = (hit, out, self') ->
  hitInstancerContext out = (path, index) :: rest ->
  _TestIntersection self viewMatrix projectionMatrix root params =
    ((hitPoint out, hitNormal out, hitPrimPath out, hitInstanceIndex out,
      path, index), self') ∧
  (∀ (Engine2 : Type)
     (methods2 : @UsdImagingGLEngine GfMatrix4d UsdPrim
                   UsdImagingGLRenderParams double Engine2)
     (self2 : Engine2) (viewMatrix2 projectionMatrix2 : GfMatrix4d)
     (root2 : UsdPrim) (params2 : UsdImagingGLRenderParams)
     (hit2 : bool) (out2 : IntersectionOut) (self2' : Engine2)
     (rest2 : HdInstancerContext),
     TestIntersection self2 viewMatrix2 projectionMatrix2 root2 params2
                      _TestIntersection_locals = (hit2, out2, self2') ->
     hitPoint out2 = hitPoint out ->
     hitNormal out2 = hitNormal out ->
     hitPrimPath out2 = hitPrimPath out ->
     hitInstanceIndex out2 = hitInstanceIndex out ->
     hitInstancerContext out2 = (path, index) :: rest2 ->
     fst (_TestIntersection self2 viewMatrix2 projectionMatrix2 root2 params2)
     = fst (_TestIntersection self viewMatrix projectionMatrix root params)).
Proof.
  intros Hcall Hctx. split.
  - rewrite (_TestIntersection_unfold _ _ _ _ _ _ _ _ Hcall), Hctx.
    reflexivity.
  - intros Engine2 methods2 self2 viewMatrix2 projectionMatrix2 root2 params2
      hit2 out2 self2' rest2 Hcall2 Hpoint Hnormal Hprim Hinst Hctx2.
    rewrite (_TestIntersection_unfold _ _ _ _ _ _ _ _ Hcall), Hctx.
    rewrite (_TestIntersection_unfold _ _ _ _ _ _ _ _ Hcall2), Hctx2.
    cbn. by rewrite Hpoint, Hnormal, Hprim, Hinst.
Qed.

(** C10.  When the engine's intersection test leaves the instancer context
    empty, the tuple has the empty path and -1 as top-level instancer path
    and instance index, next to the hit point, normal, prim path and
    instance index the engine produced. *)
Theorem TestIntersection_empty_context
    (self : Engine) (viewMatrix projectionMatrix : GfMatrix4d)
    (root : UsdPrim) (params : UsdImagingGLRenderParams)
    (hit : bool) (out : IntersectionOut) (self' : Engine) :
  TestIntersection self viewMatrix projectionMatrix root params
                   _TestIntersection_locals = (hit, out, self') ->
  hitInstancerContext out = [] ->
  _TestIntersection self viewMatrix projectionMatrix root params =
    ((hitPoint out, hitNormal out, hitPrimPath out, hitInstanceIndex out,
      SdfPath_EmptyPath, -1), self').
Proof.
  intros Hcall Hctx.
  rewrite (_TestIntersection_unfold _ _ _ _ _ _ _ _ Hcall), Hctx.
  reflexivity.
Qed.

(** C9.  Given an object that extracts to a window policy, the setter
    passes (true, that policy) to the engine; given any other object it
    passes (false, [CameraUtilFit]): no override. *)
Theorem SetOverrideWindowPolicy_forwarding (self : Engine) (pyObj : PyObject) :
  (∀ policy,
     extract_CameraUtilConformWindowPolicy pyObj = Some policy ->
     _SetOverrideWindowPolicy self pyObj =
     SetOverrideWindowPolicy self (true, policy)) ∧
  (extract_CameraUtilConformWindowPolicy pyObj = None ->
   _SetOverrideWindowPolicy self pyObj =
   SetOverrideWindowPolicy self (false, CameraUtilFit)).
Proof.
  unfold _SetOverrideWindowPolicy.
  split; [intros policy Hsome | intros Hnone].
  - by rewrite Hsome.
  - by rewrite Hnone.
Qed.

End WrapEngineProperties.

Lemma TestIntersection_first_entry_witness :
  let out :=
    mkIntersectionOut (mkGfVec3d 1 2 3) (mkGfVec3d 0 0 1) "/World/Cube"
                      "/World/Instancer" 5 [("/pathA", 3); ("/pathB", 7)] in
  let self := mkCannedEngine (Some out) (false, CameraUtilFit) in
  TestIntersection self () () () () _TestIntersection_locals
    = (true, out, self) ∧
  hitInstancerContext out = ("/pathA", 3) :: [("/pathB", 7)] ∧
  _TestIntersection self () () () () =
    ((mkGfVec3d 1 2 3, mkGfVec3d 0 0 1, "/World/Cube", 5, "/pathA", 3), self).
Proof.
  intros out self.
  assert (Hcall : TestIntersection self () () () () _TestIntersection_locals
                  = (true, out, self)) by reflexivity.
  assert (Hctx : hitInstancerContext out = ("/pathA", 3) :: [("/pathB", 7)])
    by reflexivity.
  destruct (TestIntersection_first_entry self () () () () true out self
              "/pathA" 3 [("/pathB", 7)] Hcall Hctx) as [Hresult _].
  exact (conj Hcall (conj Hctx Hresult)).
Defined.

Lemma TestIntersection_empty_context_witness :
  let out :=
    mkIntersectionOut (mkGfVec3d 1 2 3) (mkGfVec3d 0 0 1) "/World/Cube" "" 0
                      [] in
  let self := mkCannedEngine (Some out) (false, CameraUtilFit) in
  TestIntersection self () () () () _TestIntersection_locals
    = (true, out, self) ∧
  hitInstancerContext out = [] ∧
  _TestIntersection self () () () () =
    ((mkGfVec3d 1 2 3, mkGfVec3d 0 0 1, "/World/Cube", 0, "", -1), self).
Proof.
  intros out self.
  assert (Hcall : TestIntersection self () () () () _TestIntersection_locals
                  = (true, out, self)) by reflexivity.
  assert (Hctx : hitInstancerContext out = []) by reflexivity.
  exact (conj Hcall (conj Hctx
           (TestIntersection_empty_context self () () () () true out self
              Hcall Hctx))).
Defined.

Example TestIntersection_no_hit :
  fst (_TestIntersection (mkCannedEngine None (false, CameraUtilFit))
                         () () () ()) =
  (mkGfVec3d 0 0 0, mkGfVec3d 0 0 0, "", -1, "", -1).
Proof. reflexivity. Qed.

Lemma SetOverrideWindowPolicy_forwarding_witness :
  let self := mkCannedEngine None (true, CameraUtilMatchVertically) in
  (extract_CameraUtilConformWindowPolicy (PyConformWindowPolicy CameraUtilCrop)
     = Some CameraUtilCrop ∧
   _SetOverrideWindowPolicy self (PyConformWindowPolicy CameraUtilCrop) =
     SetOverrideWindowPolicy self (true, CameraUtilCrop)) ∧
  (extract_CameraUtilConformWindowPolicy PyNone = None ∧
   _SetOverrideWindowPolicy self PyNone =
     SetOverrideWindowPolicy self (false, CameraUtilFit)).
Proof.
  intros self.
  destruct (SetOverrideWindowPolicy_forwarding self
              (PyConformWindowPolicy CameraUtilCrop)) as [Hpolicy _].
  destruct (SetOverrideWindowPolicy_forwarding self PyNone) as [_ Hnone].
  exact (conj (conj eq_refl (Hpolicy CameraUtilCrop eq_refl))
              (conj eq_refl (Hnone eq_refl))).
Defined.

Example SetOverrideWindowPolicy_None :
  canned_policy
    (_SetOverrideWindowPolicy
       (mkCannedEngine None (true, CameraUtilCrop)) PyNone) =
  (false, CameraUtilFit).
Proof. reflexivity. Qed.

(** ** Prim factories *)

Lemma is_light_typeId_not_earlier (typeId : TfToken) :
  is_light_typeId typeId = true ->
  (typeId =? HdPrimTypeTokens.camera)%string = false ∧
  (typeId =? HdPrimTypeTokens.material)%string = false ∧
  (typeId =? HdPrimTypeTokens.coordSys)%string = false ∧
  (typeId =? HdPrimTypeTokens.lightFilter)%string = false.
Proof.
  unfold is_light_typeId. intros Hlight.
  repeat (apply orb_prop in Hlight as [Hlight | Hlight]);
    apply String.eqb_eq in Hlight; subst typeId; done.
Qed.

Lemma CreateSprim_light (typeId : TfToken) (sprimId : SdfPath) (w : World) :
  is_light_typeId typeId = true ->
  CreateSprim typeId sprimId w =
  (Some (fresh (dom (sprims w))),
   let w1 := set_sprims (<[fresh (dom (sprims w)) := HdPrmanLight sprimId typeId]>
                           (sprims w)) w in
   if negb (sprimId =? SdfPath_EmptyPath)%string
   then set_this (set_renderParam IncreaseSceneLightCount) w1 else w1).
Proof.
  intros Hlight. unfold CreateSprim.
  destruct (is_light_typeId_not_earlier _ Hlight) as (-> & -> & -> & ->).
  rewrite Hlight. reflexivity.
Qed.

Lemma CreateFallbackSprim_light (typeId : TfToken) (w : World) :
  is_light_typeId typeId = true ->
  CreateFallbackSprim typeId w =
  (Some (fresh (dom (sprims w))),
   set_sprims (<[fresh (dom (sprims w)) := HdPrmanLight SdfPath_EmptyPath typeId]>
                 (sprims w)) w).
Proof.
  intros Hlight. unfold CreateFallbackSprim.
  destruct (is_light_typeId_not_earlier _ Hlight) as (-> & -> & -> & ->).
  rewrite Hlight. reflexivity.
Qed.

Lemma fresh_sprim_free (w : World) : sprims w !! fresh (dom (sprims w)) = None.
Proof. apply not_elem_of_dom, is_fresh. Qed.

Lemma CreateSprim_sceneLightCount
    (typeId : TfToken) (sprimId : SdfPath) (w : World) :
  sceneLightCount (snd (CreateSprim typeId sprimId w)) =
  if is_light_typeId typeId && negb (sprimId =? SdfPath_EmptyPath)%string
  then int_incr (sceneLightCount w) else sceneLightCount w.
Proof.
  destruct (is_light_typeId typeId) eqn:Hlight.
  - rewrite CreateSprim_light by done. cbn.
    destruct (sprimId =? SdfPath_EmptyPath)%string; reflexivity.
  - unfold CreateSprim. rewrite Hlight. cbn.
    repeat match goal with
           | |- context [if ?b then _ else _] => destruct b
           end; reflexivity.
Qed.

Lemma CreateFallbackSprim_sceneLightCount (typeId : TfToken) (w : World) :
  sceneLightCount (snd (CreateFallbackSprim typeId w)) = sceneLightCount w.
Proof.
  unfold CreateFallbackSprim.
  repeat match goal with
         | |- context [if ?b then _ else _] => destruct b
         end; reflexivity.
Qed.

Lemma DestroySprim_sceneLightCount (sprim : positive) (obj : HdSprim) (w : World) :
  sprims w !! sprim = Some obj ->
  ∃ w', DestroySprim sprim w = Some w' ∧
        sprims w' = delete sprim (sprims w) ∧
        sceneLightCount w' =
          if negb (HdSprim_GetId obj =? SdfPath_EmptyPath)%string
          then int_decr (sceneLightCount w) else sceneLightCount w.
Proof.
  intros Hlive. unfold DestroySprim. rewrite Hlive.
  eexists. split; [reflexivity|].
  destruct (HdSprim_GetId obj =? SdfPath_EmptyPath)%string; done.
Qed.

Lemma int_decr_changes (z : Z) : int_decr z ≠ z.
Proof.
  unfold int_decr, int_wrap. intros Heq.
  pose proof (Z.mod_pos_bound (z - 1 + 2 ^ 31) (2 ^ 32) ltac:(lia)) as Hb.
  destruct (decide (0 <= z - 1 + 2 ^ 31)) as [Hlo | Hlo].
  - rewrite Z.mod_small in Heq; lia.
  - assert (z = - 2 ^ 31) as -> by lia.
    replace (- 2 ^ 31 - 1 + 2 ^ 31) with (-1) in Heq by lia.
    vm_compute in Heq. discriminate.
Qed.

(** C3.  [DestroySprim] decrements the scene light count for a Sprim of any
    class whose path is not empty (and leaves it for an empty path), while
    [CreateSprim] increments the count exactly for a light tag with a path
    that is not empty. *)
Theorem DestroySprim_counts_every_type (w : World) :
  (∀ sprim obj,
     sprims w !! sprim = Some obj ->
     HdSprim_GetId obj ≠ SdfPath_EmptyPath ->
     ∃ w', DestroySprim sprim w = Some w' ∧
           sceneLightCount w' = int_decr (sceneLightCount w) ∧
           sceneLightCount w' ≠ sceneLightCount w) ∧
  (∀ typeId sprimId,
     sceneLightCount (snd (CreateSprim typeId sprimId w)) =
     if is_light_typeId typeId && negb (sprimId =? SdfPath_EmptyPath)%string
     then int_incr (sceneLightCount w) else sceneLightCount w).
Proof.
  split.
  - intros sprim obj Hlive Hid.
    destruct (DestroySprim_sceneLightCount sprim obj w Hlive)
      as (w' & Hdestroy & _ & Hcount).
    apply String.eqb_neq in Hid. rewrite Hid in Hcount. cbn in Hcount.
    exists w'. repeat split; [done..|].
    rewrite Hcount. apply int_decr_changes.
  - intros typeId sprimId. apply CreateSprim_sceneLightCount.
Qed.

Lemma DestroySprim_counts_every_type_witness :
  let w := snd (CreateSprim HdPrimTypeTokens.camera "/World/Camera"
                  (World_new (mkEnvironment ∅ ∅ false) ∅ false)) in
  sprims w !! 1%positive = Some (HdPrmanCamera "/World/Camera") ∧
  HdSprim_GetId (HdPrmanCamera "/World/Camera") ≠ SdfPath_EmptyPath ∧
  sceneLightCount w = 0 ∧
  ∃ w', DestroySprim 1%positive w = Some w' ∧ sceneLightCount w' = -1.
Proof.
  intros w.
  assert (Hlive : sprims w !! 1%positive = Some (HdPrmanCamera "/World/Camera"))
    by (vm_compute; reflexivity).
  assert (Hid : HdSprim_GetId (HdPrmanCamera "/World/Camera") ≠ SdfPath_EmptyPath)
    by discriminate.
  destruct (DestroySprim_counts_every_type w) as [Hdestroy _].
  destruct (Hdestroy _ _ Hlive Hid) as (w' & Hsome & Hcount & _).
  refine (conj Hlive (conj Hid (conj eq_refl (ex_intro _ w' (conj Hsome _))))).
  rewrite Hcount. vm_compute. reflexivity.
Defined.

(** Decide the next comparison of [typeId] with a token, keeping the
    equation, and let the conditional fall to its branch. *)
Ltac next_typeId typeId :=
  match goal with
  | |- context [String.eqb typeId ?c] =>
      let Heq := fresh "Heq" in
      destruct (String.eqb_spec typeId c) as [Heq | Heq]; cbn [orb]
  end.

Ltac world_simpl :=
  unfold return_new, new_rprim, new_sprim, new_bprim;
  cbn [fst snd rprims sprims bprims diagnostics this set_rprims set_sprims
       set_bprims set_this TF_CODING_ERROR].

(** The factory allocated [obj] of the requested type: one more live
    object, nothing reported. *)
Ltac solve_created :=
  world_simpl; cbn [HdSprim_GetId];
  try match goal with
      | |- context [String.eqb ?id SdfPath_EmptyPath] =>
          destruct (String.eqb id SdfPath_EmptyPath); cbn [negb]
      end;
  (eexists _, _, _; split;
   [ reflexivity
   | world_simpl; split;
     [apply lookup_insert_eq | split; [by subst | reflexivity]] ]).

Ltac solve_unsupported Hnin :=
  first [ reflexivity
        | exfalso; apply Hnin;
          match goal with Heq : _ = _ |- _ => rewrite Heq end;
          repeat first [ apply list_elem_of_here | apply list_elem_of_further ] ].

Lemma CreateRprim_supported (typeId : TfToken) (rprimId : SdfPath) (w : World) :
  typeId ∈ SUPPORTED_RPRIM_TYPES ->
  ∃ p obj w', CreateRprim typeId rprimId w = (Some p, w') ∧
              rprims w' !! p = Some obj ∧ HdRprim_type obj = Some typeId ∧
              diagnostics w' = diagnostics w.
Proof.
  intros Hin. unfold CreateRprim.
  repeat (next_typeId typeId; [solve_created|]).
  exfalso. unfold SUPPORTED_RPRIM_TYPES in Hin.
  rewrite !elem_of_cons, elem_of_nil in Hin. tauto.
Qed.

Lemma CreateRprim_unsupported (typeId : TfToken) (rprimId : SdfPath) (w : World) :
  typeId ∉ SUPPORTED_RPRIM_TYPES ->
  CreateRprim typeId rprimId w =
  (None, TF_CODING_ERROR ("Unknown Rprim Type " +:+ typeId) w).
Proof.
  intros Hnin. unfold CreateRprim.
  repeat (next_typeId typeId; [solve_unsupported Hnin|]).
  reflexivity.
Qed.

Lemma CreateSprim_supported (typeId : TfToken) (sprimId : SdfPath) (w : World) :
  typeId ∈ SUPPORTED_SPRIM_TYPES ->
  ∃ p obj w', CreateSprim typeId sprimId w = (Some p, w') ∧
              sprims w' !! p = Some obj ∧ HdSprim_type obj = Some typeId ∧
              diagnostics w' = diagnostics w.
Proof.
  intros Hin. unfold CreateSprim, is_light_typeId.
  repeat (next_typeId typeId; [solve_created|]).
  exfalso. unfold SUPPORTED_SPRIM_TYPES in Hin.
  rewrite !elem_of_cons, elem_of_nil in Hin. tauto.
Qed.

Lemma CreateSprim_unsupported (typeId : TfToken) (sprimId : SdfPath) (w : World) :
  typeId ∉ SUPPORTED_SPRIM_TYPES ->
  CreateSprim typeId sprimId w =
  (None, TF_CODING_ERROR ("Unknown Sprim Type " +:+ typeId) w).
Proof.
  intros Hnin. unfold CreateSprim, is_light_typeId.
  repeat (next_typeId typeId; [solve_unsupported Hnin|]).
  reflexivity.
Qed.

Lemma CreateFallbackSprim_supported (typeId : TfToken) (w : World) :
  typeId ∈ SUPPORTED_SPRIM_TYPES ->
  ∃ p obj w', CreateFallbackSprim typeId w = (Some p, w') ∧
              sprims w' !! p = Some obj ∧ HdSprim_type obj = Some typeId ∧
              diagnostics w' = diagnostics w.
Proof.
  intros Hin. unfold CreateFallbackSprim, is_light_typeId.
  repeat (next_typeId typeId; [solve_created|]).
  exfalso. unfold SUPPORTED_SPRIM_TYPES in Hin.
  rewrite !elem_of_cons, elem_of_nil in Hin. tauto.
Qed.

Lemma CreateFallbackSprim_unsupported (typeId : TfToken) (w : World) :
  typeId ∉ SUPPORTED_SPRIM_TYPES ->
  CreateFallbackSprim typeId w =
  (None, TF_CODING_ERROR ("Unknown Sprim Type " +:+ typeId) w).
Proof.
  intros Hnin. unfold CreateFallbackSprim, is_light_typeId.
  repeat (next_typeId typeId; [solve_unsupported Hnin|]).
  reflexivity.
Qed.

Lemma CreateBprim_supported (typeId : TfToken) (bprimId : SdfPath) (w : World) :
  typeId ∈ SUPPORTED_BPRIM_TYPES ->
  ∃ p obj w', CreateBprim typeId bprimId w = (Some p, w') ∧
              bprims w' !! p = Some obj ∧ HdBprim_type obj = Some typeId ∧
              diagnostics w' = diagnostics w.
Proof.
  intros Hin. unfold CreateBprim.
  repeat (next_typeId typeId; [solve_created|]).
  exfalso. unfold SUPPORTED_BPRIM_TYPES in Hin.
  rewrite !elem_of_cons, elem_of_nil in Hin. tauto.
Qed.

Lemma CreateBprim_unsupported (typeId : TfToken) (bprimId : SdfPath) (w : World) :
  typeId ∉ SUPPORTED_BPRIM_TYPES ->
  CreateBprim typeId bprimId w =
  (None, TF_CODING_ERROR ("Unknown Bprim Type " +:+ typeId) w).
Proof.
  intros Hnin. unfold CreateBprim.
  repeat (next_typeId typeId; [solve_unsupported Hnin|]).
  reflexivity.
Qed.

Lemma CreateFallbackBprim_supported (typeId : TfToken) (w : World) :
  typeId ∈ SUPPORTED_BPRIM_TYPES ->
  ∃ p obj w', CreateFallbackBprim typeId w = (Some p, w') ∧
              bprims w' !! p = Some obj ∧ HdBprim_type obj = Some typeId ∧
              diagnostics w' = diagnostics w.
Proof.
  intros Hin. unfold CreateFallbackBprim.
  repeat (next_typeId typeId; [solve_created|]).
  exfalso. unfold SUPPORTED_BPRIM_TYPES in Hin.
  rewrite !elem_of_cons, elem_of_nil in Hin. tauto.
Qed.

Lemma CreateFallbackBprim_unsupported (typeId : TfToken) (w : World) :
  typeId ∉ SUPPORTED_BPRIM_TYPES ->
  CreateFallbackBprim typeId w =
  (None, TF_CODING_ERROR ("Unknown Bprim Type " +:+ typeId) w).
Proof.
  intros Hnin. unfold CreateFallbackBprim.
  repeat (next_typeId typeId; [solve_unsupported Hnin|]).
  reflexivity.
Qed.

Lemma created_intro {Obj : Type} (heap : World -> gmap positive Obj)
    (type_of : Obj -> option TfToken) (typeId : TfToken) (w : World)
    (result : option positive * World) :
  (∃ p obj w', result = (Some p, w') ∧ heap w' !! p = Some obj ∧
               type_of obj = Some typeId ∧ diagnostics w' = diagnostics w) ->
  created heap type_of typeId w result.
Proof.
  intros (p & obj & w' & -> & Hlive & Htype & Hdiag). by exists p, obj.
Qed.

Lemma rejected_intro (message : string) (w : World)
    (result : option positive * World) :
  result = (None, TF_CODING_ERROR message w) -> rejected message w result.
Proof. intros ->. by repeat split. Qed.

(** C4.  Each factory, given a tag of its supported set, returns a pointer
    to a new object whose type is the requested tag and reports nothing;
    given any other tag it posts a coding error to the diagnostic channel
    and returns the null pointer. *)
Theorem factories_closed_dispatch (typeId : TfToken) (id : SdfPath) (w : World) :
  (typeId ∈ SUPPORTED_RPRIM_TYPES ->
   created rprims HdRprim_type typeId w (CreateRprim typeId id w)) ∧
  (typeId ∉ SUPPORTED_RPRIM_TYPES ->
   rejected ("Unknown Rprim Type " +:+ typeId) w (CreateRprim typeId id w)) ∧
  (typeId ∈ SUPPORTED_SPRIM_TYPES ->
   created sprims HdSprim_type typeId w (CreateSprim typeId id w) ∧
   created sprims HdSprim_type typeId w (CreateFallbackSprim typeId w)) ∧
  (typeId ∉ SUPPORTED_SPRIM_TYPES ->
   rejected ("Unknown Sprim Type " +:+ typeId) w (CreateSprim typeId id w) ∧
   rejected ("Unknown Sprim Type " +:+ typeId) w
            (CreateFallbackSprim typeId w)) ∧
  (typeId ∈ SUPPORTED_BPRIM_TYPES ->
   created bprims HdBprim_type typeId w (CreateBprim typeId id w) ∧
   created bprims HdBprim_type typeId w (CreateFallbackBprim typeId w)) ∧
  (typeId ∉ SUPPORTED_BPRIM_TYPES ->
   rejected ("Unknown Bprim Type " +:+ typeId) w (CreateBprim typeId id w) ∧
   rejected ("Unknown Bprim Type " +:+ typeId) w
            (CreateFallbackBprim typeId w)).
Proof.
  split; [|split; [|split; [|split; [|split]]]]; intros Htag.
  - by apply created_intro, CreateRprim_supported.
  - by apply rejected_intro, CreateRprim_unsupported.
  - split.
    + by apply created_intro, CreateSprim_supported.
    + by apply created_intro, CreateFallbackSprim_supported.
  - split.
    + by apply rejected_intro, CreateSprim_unsupported.
    + by apply rejected_intro, CreateFallbackSprim_unsupported.
  - split.
    + by apply created_intro, CreateBprim_supported.
    + by apply created_intro, CreateFallbackBprim_supported.
  - split.
    + by apply rejected_intro, CreateBprim_unsupported.
    + by apply rejected_intro, CreateFallbackBprim_unsupported.
Qed.

Lemma factories_closed_dispatch_witness :
  let w := World_new (mkEnvironment ∅ ∅ false) ∅ false in
  ("mesh" ∈ SUPPORTED_RPRIM_TYPES ∧
   created rprims HdRprim_type "mesh" w (CreateRprim "mesh" "/World/Mesh" w)) ∧
  (("teapot" ∉ SUPPORTED_RPRIM_TYPES) ∧
   rejected "Unknown Rprim Type teapot" w (CreateRprim "teapot" "/World/Pot" w)) ∧
  ("sphereLight" ∈ SUPPORTED_SPRIM_TYPES ∧
   created sprims HdSprim_type "sphereLight" w
           (CreateSprim "sphereLight" "/World/Key" w) ∧
   created sprims HdSprim_type "sphereLight" w
           (CreateFallbackSprim "sphereLight" w)) ∧
  (("teapot" ∉ SUPPORTED_SPRIM_TYPES) ∧
   rejected "Unknown Sprim Type teapot" w (CreateSprim "teapot" "/World/Pot" w) ∧
   rejected "Unknown Sprim Type teapot" w (CreateFallbackSprim "teapot" w)) ∧
  ("openvdbAsset" ∈ SUPPORTED_BPRIM_TYPES ∧
   created bprims HdBprim_type "openvdbAsset" w
           (CreateBprim "openvdbAsset" "/World/Smoke" w) ∧
   created bprims HdBprim_type "openvdbAsset" w
           (CreateFallbackBprim "openvdbAsset" w)) ∧
  (("teapot" ∉ SUPPORTED_BPRIM_TYPES) ∧
   rejected "Unknown Bprim Type teapot" w (CreateBprim "teapot" "/World/Pot" w) ∧
   rejected "Unknown Bprim Type teapot" w (CreateFallbackBprim "teapot" w)).
Proof.
  intros w.
  assert (Hr : "mesh" ∈ SUPPORTED_RPRIM_TYPES)
    by (apply (bool_decide_unpack _); vm_compute; exact I).
  assert (Hnr : "teapot" ∉ SUPPORTED_RPRIM_TYPES)
    by (apply (bool_decide_unpack _); vm_compute; exact I).
  assert (Hs : "sphereLight" ∈ SUPPORTED_SPRIM_TYPES)
    by (apply (bool_decide_unpack _); vm_compute; exact I).
  assert (Hns : "teapot" ∉ SUPPORTED_SPRIM_TYPES)
    by (apply (bool_decide_unpack _); vm_compute; exact I).
  assert (Hb : "openvdbAsset" ∈ SUPPORTED_BPRIM_TYPES)
    by (apply (bool_decide_unpack _); vm_compute; exact I).
  assert (Hnb : "teapot" ∉ SUPPORTED_BPRIM_TYPES)
    by (apply (bool_decide_unpack _); vm_compute; exact I).
  destruct (factories_closed_dispatch "mesh" "/World/Mesh" w)
    as (Hmesh & _).
  destruct (factories_closed_dispatch "teapot" "/World/Pot" w)
    as (_ & Hpot_r & _ & Hpot_s & _ & Hpot_b).
  destruct (factories_closed_dispatch "sphereLight" "/World/Key" w)
    as (_ & _ & Hlight & _).
  destruct (factories_closed_dispatch "openvdbAsset" "/World/Smoke" w)
    as (_ & _ & _ & _ & Hvdb & _).
  exact (conj (conj Hr (Hmesh Hr))
        (conj (conj Hnr (Hpot_r Hnr))
        (conj (conj Hs (Hlight Hs))
        (conj (conj Hns (Hpot_s Hns))
        (conj (conj Hb (Hvdb Hb)) (conj Hnb (Hpot_b Hnb))))))).
Defined.

Example prim_type_of_misconstructed :
  HdSprim_type (HdPrmanLightFilter "/World/Camera" HdPrimTypeTokens.camera)
    = None ∧
  HdSprim_type (HdPrmanLight "/World/Gobo" HdPrimTypeTokens.lightFilter)
    = None ∧
  HdBprim_type (HdPrman_Field HdPrimTypeTokens.renderBuffer "/World/Color")
    = None ∧
  HdSprim_type (HdPrmanLight "/World/Key" HdPrimTypeTokens.rectLight)
    = Some HdPrimTypeTokens.rectLight.
Proof. vm_compute. done. Qed.

Example CreateSprim_unknown_tag :
  let w := World_new (mkEnvironment ∅ ∅ false) ∅ false in
  fst (CreateSprim "teapot" "/World/Pot" w) = None ∧
  diagnostics (snd (CreateSprim "teapot" "/World/Pot" w)) =
    [TfCodingError "Unknown Sprim Type teapot"].
Proof. vm_compute. done. Qed.

Example CreateBprim_field3d :
  let w := World_new (mkEnvironment ∅ ∅ false) ∅ false in
  ∃ w', CreateBprim _tokens.field3dAsset "/World/Fog" w = (Some 1%positive, w') ∧
        bprims w' !! 1%positive = Some (HdPrman_Field "field3dAsset" "/World/Fog").
Proof. eexists. split; vm_compute; reflexivity. Qed.

(** ** The light count *)

Section LiveLights.

Let live (entry : positive * HdSprim) : Prop :=
  nonfallback_light (snd entry) = true.

Lemma live_lights_insert (h : gmap positive HdSprim) (p : positive)
    (obj : HdSprim) :
  h !! p = None ->
  size (filter live (<[p := obj]> h)) =
  if nonfallback_light obj then S (size (filter live h))
  else size (filter live h).
Proof.
  intros Hfree. destruct (nonfallback_light obj) eqn:Hobj.
  - rewrite map_filter_insert_True by done.
    apply map_size_insert_None, map_lookup_filter_None. by left.
  - rewrite map_filter_insert_not'; [done| |].
    + unfold live. cbn. by rewrite Hobj.
    + intros y Hy. congruence.
Qed.

Lemma live_lights_delete (h : gmap positive HdSprim) (p : positive)
    (obj : HdSprim) :
  h !! p = Some obj ->
  size (filter live h) =
  if nonfallback_light obj then S (size (filter live (delete p h)))
  else size (filter live (delete p h)).
Proof.
  intros Hlive. rewrite map_filter_delete.
  destruct (nonfallback_light obj) eqn:Hobj.
  - rewrite <- (insert_delete_id (filter live h) p obj) at 1
      by (by apply map_lookup_filter_Some).
    apply map_size_insert_None, lookup_delete_eq.
  - rewrite delete_id; [done|].
    apply map_lookup_filter_None. right. intros y Hy.
    unfold live. cbn. congruence.
Qed.

End LiveLights.

Lemma _Initialize_renderParam (env : Environment) (d : HdPrmanRenderDelegate) :
  _renderParam (_Initialize env d) = _renderParam d.
Proof.
  unfold _Initialize. destruct (HD_PRMAN_ENABLE_QUICKINTEGRATE env); reflexivity.
Qed.

Lemma World_new_accounted (env : Environment)
    (settingsMap : gmap string VtValue) (debug : bool) :
  lights_accounted (World_new env settingsMap debug).
Proof.
  split.
  - intros p obj Hlive. cbn in Hlive. by rewrite lookup_empty in Hlive.
  - unfold sceneLightCount, live_nonfallback_lights, World_new,
      HdPrmanRenderDelegate_new.
    cbn [this sprims]. rewrite _Initialize_renderParam.
    rewrite map_filter_empty, map_size_empty. reflexivity.
Qed.

Lemma SprimCall_step_accounted (call : SprimCall) (w w' : World) :
  lights_accounted w -> SprimCall_light call ->
  SprimCall_step call w = Some w' -> lights_accounted w'.
Proof.
  intros [Hlights Hcount] Hcall Hstep.
  pose proof (fresh_sprim_free w) as Hfree.
  destruct call as [typeId sprimId | typeId | sprim]; cbn in Hcall, Hstep.
  - rewrite CreateSprim_light in Hstep by done.
    injection Hstep as <-. split.
    + intros p obj.
      destruct (sprimId =? SdfPath_EmptyPath)%string; cbn;
        (rewrite lookup_insert; case_decide; [intros [= <-]; eauto | eauto]).
    + pose proof (live_lights_insert (sprims w) _
                    (HdPrmanLight sprimId typeId) Hfree) as Hsize.
      unfold sceneLightCount, live_nonfallback_lights in *. cbn in Hsize.
      destruct (sprimId =? SdfPath_EmptyPath)%string;
        cbn in Hsize |- *; rewrite Hsize, Hcount; [done|].
      rewrite int_incr_wrap. f_equal. lia.
  - rewrite CreateFallbackSprim_light in Hstep by done.
    injection Hstep as <-. split.
    + intros p obj. cbn.
      rewrite lookup_insert; case_decide; [intros [= <-]; eauto | eauto].
    + pose proof (live_lights_insert (sprims w) _
                    (HdPrmanLight SdfPath_EmptyPath typeId) Hfree) as Hsize.
      unfold sceneLightCount, live_nonfallback_lights in *.
      cbn in Hsize |- *. by rewrite Hsize, Hcount.
  - destruct (sprims w !! sprim) as [obj|] eqn:Hlive;
      [|by unfold DestroySprim in Hstep; rewrite Hlive in Hstep].
    destruct (DestroySprim_sceneLightCount sprim obj w Hlive)
      as (w2 & Hdestroy & Hheap & Hcount2).
    rewrite Hdestroy in Hstep. injection Hstep as <-. split.
    + intros p obj'. rewrite Hheap. intros Hp.
      apply lookup_delete_Some in Hp as [_ Hp]. eauto.
    + destruct (Hlights _ _ Hlive) as (id & t & ->).
      pose proof (live_lights_delete (sprims w) sprim _ Hlive) as Hsize.
      unfold sceneLightCount, live_nonfallback_lights in *.
      rewrite Hheap. cbn in Hsize, Hcount2.
      destruct (id =? SdfPath_EmptyPath)%string; cbn in Hsize, Hcount2;
        rewrite Hcount2, Hcount, Hsize; [done|].
      rewrite int_decr_wrap. f_equal. lia.
Qed.

Lemma SprimCall_run_accounted (calls : list SprimCall) (w w' : World) :
  lights_accounted w -> Forall SprimCall_light calls ->
  SprimCall_run calls w = Some w' -> lights_accounted w'.
Proof.
  revert w. induction calls as [|call rest IH]; intros w Hacc Hcalls Hrun.
  - by injection Hrun as <-.
  - cbn in Hrun. apply Forall_cons in Hcalls as [Hcall Hrest].
    destruct (SprimCall_step call w) as [w1|] eqn:Hstep; [|done].
    apply (IH w1); [|done..].
    by apply (SprimCall_step_accounted call w).
Qed.

(** C2.  After any sequence of [CreateSprim], [CreateFallbackSprim] and
    [DestroySprim] calls with light tags on a new delegate, the scene light
    count is the number of live lights created with a non-empty path.
    Creating a light with the empty path, through either factory, or
    destroying one leaves the count as it is; creating a light with a
    non-empty path increments the count and destroying that light undoes the
    increment. *)
Theorem light_count_invariant
    (env : Environment) (settingsMap : gmap string VtValue) (debug : bool)
    (calls : list SprimCall) (w : World) :
  Forall SprimCall_light calls ->
  SprimCall_run calls (World_new env settingsMap debug) = Some w ->
  sceneLightCount w = int_wrap (Z.of_nat (live_nonfallback_lights w)) ∧
  (Z.of_nat (live_nonfallback_lights w) <= INT_MAX ->
   sceneLightCount w = Z.of_nat (live_nonfallback_lights w)) ∧
  (∀ typeId,
     is_light_typeId typeId = true ->
     sceneLightCount (snd (CreateFallbackSprim typeId w)) = sceneLightCount w ∧
     sceneLightCount (snd (CreateSprim typeId SdfPath_EmptyPath w)) =
       sceneLightCount w) ∧
  (∀ sprim typeId,
     sprims w !! sprim = Some (HdPrmanLight SdfPath_EmptyPath typeId) ->
     ∃ w', DestroySprim sprim w = Some w' ∧
           sceneLightCount w' = sceneLightCount w) ∧
  (∀ typeId sprimId,
     is_light_typeId typeId = true -> sprimId ≠ SdfPath_EmptyPath ->
     ∃ p w1 w2,
       CreateSprim typeId sprimId w = (Some p, w1) ∧
       sceneLightCount w1 = int_incr (sceneLightCount w) ∧
       DestroySprim p w1 = Some w2 ∧
       sceneLightCount w2 = int_decr (sceneLightCount w1) ∧
       sceneLightCount w2 = sceneLightCount w).
Proof.
  intros Hcalls Hrun.
  destruct (SprimCall_run_accounted calls _ w
              (World_new_accounted env settingsMap debug) Hcalls Hrun)
    as [Hlights Hcount].
  split; [exact Hcount|]. split; [|split; [|split]].
  - intros Hbound. rewrite Hcount. apply int_wrap_small.
    unfold INT_MIN, INT_MAX in *. lia.
  - intros typeId Hlight. split.
    + apply CreateFallbackSprim_sceneLightCount.
    + rewrite CreateSprim_sceneLightCount, Hlight. reflexivity.
  - intros sprim typeId Hlive.
    destruct (DestroySprim_sceneLightCount sprim _ w Hlive)
      as (w' & Hdestroy & _ & Hcount').
    exists w'. by split.
  - intros typeId sprimId Hlight Hid.
    apply String.eqb_neq in Hid.
    pose proof (CreateSprim_light typeId sprimId w Hlight) as Hcreate.
    rewrite Hid in Hcreate. cbn [negb] in Hcreate.
    set (p := fresh (dom (sprims w))) in *.
    set (w1 := set_this _ _) in Hcreate.
    assert (Hlive : sprims w1 !! p = Some (HdPrmanLight sprimId typeId))
      by apply lookup_insert_eq.
    destruct (DestroySprim_sceneLightCount p _ w1 Hlive)
      as (w2 & Hdestroy & _ & Hcount2).
    cbn [HdSprim_GetId] in Hcount2. rewrite Hid in Hcount2.
    cbn [negb] in Hcount2.
    assert (Hcount1 : sceneLightCount w1 = int_incr (sceneLightCount w))
      by reflexivity.
    exists p, w1, w2. repeat split; [done..|].
    rewrite Hcount2, Hcount1, Hcount. apply int_decr_incr, int_wrap_range.
Qed.

Lemma light_count_invariant_witness :
  let env := mkEnvironment ∅ ∅ false in
  let calls :=
    [ Call_CreateSprim HdPrimTypeTokens.sphereLight "/World/Key";
      Call_CreateFallbackSprim HdPrimTypeTokens.domeLight;
      Call_CreateSprim HdPrimTypeTokens.rectLight "/World/Fill";
      Call_DestroySprim 1%positive ] in
  let w := default (World_new env ∅ false)
                   (SprimCall_run calls (World_new env ∅ false)) in
  Forall SprimCall_light calls ∧
  SprimCall_run calls (World_new env ∅ false) = Some w ∧
  Z.of_nat (live_nonfallback_lights w) <= INT_MAX ∧
  sceneLightCount w = Z.of_nat (live_nonfallback_lights w).
Proof.
  intros env calls w.
  assert (Hcalls : Forall SprimCall_light calls)
    by (repeat constructor).
  assert (Hrun : SprimCall_run calls (World_new env ∅ false) = Some w)
    by (vm_compute; reflexivity).
  assert (Hbound : Z.of_nat (live_nonfallback_lights w) <= INT_MAX)
    by (vm_compute; discriminate).
  destruct (light_count_invariant env ∅ false calls w Hcalls Hrun)
    as (_ & Hexact & _).
  exact (conj Hcalls (conj Hrun (conj Hbound (Hexact Hbound)))).
Defined.

Example light_count_run :
  let w0 := World_new (mkEnvironment ∅ ∅ false) ∅ false in
  (sceneLightCount <$>
     SprimCall_run
       [ Call_CreateSprim HdPrimTypeTokens.sphereLight "/World/Key";
         Call_CreateFallbackSprim HdPrimTypeTokens.domeLight;
         Call_CreateSprim HdPrimTypeTokens.rectLight "/World/Fill";
         Call_CreateSprim HdPrimTypeTokens.light "";
         Call_DestroySprim 1%positive;
         Call_DestroySprim 2%positive ] w0) = Some 1 ∧
  SprimCall_run [ Call_DestroySprim 1%positive ] w0 = None.
Proof. vm_compute. done. Qed.

Example light_count_camera_destroyed :
  let w0 := World_new (mkEnvironment ∅ ∅ false) ∅ false in
  (sceneLightCount <$>
     SprimCall_run
       [ Call_CreateSprim HdPrimTypeTokens.camera "/World/Camera";
         Call_DestroySprim 1%positive ] w0) = Some (-1).
Proof. vm_compute. reflexivity. Qed.

(** * Further properties *)

(** ** Render settings: what a call touches and how calls compose *)

(** The delegate after [SetRenderSetting(k, value)], by whether the call
    changes what is stored under [k]. *)
Lemma SetRenderSetting_delegate (k : TfToken) (value : VtValue) (w : World) :
  this (SetRenderSetting k value w) =
  mkDelegate (<[k := value]> (_settingsMap (this w)))
             (if setting_changes k value (_settingsMap (this w))
              then uint_incr (_settingsVersion (this w))
              else _settingsVersion (this w))
             (_settingDescriptors (this w)) (_renderParam (this w)).
Proof.
  rewrite SetRenderSetting_this. unfold setting_changes.
  destruct (_settingsMap (this w) !! k) as [prev|];
    [destruct (VtValue_ne value prev)|]; reflexivity.
Qed.

Lemma setting_changes_insert_ne (k k' : TfToken) (value value' : VtValue)
    (m : gmap string VtValue) :
  k' ≠ k ->
  setting_changes k value (<[k' := value']> m) = setting_changes k value m.
Proof. intros Hne. unfold setting_changes. by rewrite lookup_insert_ne. Qed.

Lemma setting_changes_insert_eq (k : TfToken) (value value' : VtValue)
    (m : gmap string VtValue) :
  setting_changes k value (<[k := value']> m) = VtValue_ne value value'.
Proof. unfold setting_changes. by rewrite lookup_insert_eq. Qed.

Lemma SetRenderSetting_world (k : TfToken) (value : VtValue) (w : World) :
  SetRenderSetting k value w =
  mkWorld (this (SetRenderSetting k value w)) (rprims w) (sprims w) (bprims w)
          (diagnostics w) (debug_HD_RENDER_SETTINGS w)
          (if debug_HD_RENDER_SETTINGS w
           then stdout w ++ [RenderSettingLine k value] else stdout w).
Proof.
  destruct w as [d rs ss bs diag debug out].
  unfold SetRenderSetting. cbn.
  destruct (_settingsMap d !! k) as [prev|];
    [destruct (VtValue_ne value prev)|];
    destruct debug; reflexivity.
Qed.

(** X1.  [SetRenderSetting(k, value)] leaves the entries of all other keys,
    the descriptor list, the render param, the prims and the diagnostics as
    they are; it prints one line when the debug switch is on and nothing
    otherwise. *)
Theorem SetRenderSetting_frame (k : TfToken) (value : VtValue) (w : World) :
  let w' := SetRenderSetting k value w in
  (∀ k', k' ≠ k ->
     GetRenderSettingsMap w' !! k' = GetRenderSettingsMap w !! k') ∧
  _settingDescriptors (this w') = _settingDescriptors (this w) ∧
  _renderParam (this w') = _renderParam (this w) ∧
  rprims w' = rprims w ∧ sprims w' = sprims w ∧ bprims w' = bprims w ∧
  diagnostics w' = diagnostics w ∧
  debug_HD_RENDER_SETTINGS w' = debug_HD_RENDER_SETTINGS w ∧
  stdout w' = (if debug_HD_RENDER_SETTINGS w
               then (stdout w ++ [RenderSettingLine k value])%list
               else stdout w).
Proof.
  intros w'. subst w'. split.
  - intros k' Hne. unfold GetRenderSettingsMap.
    rewrite SetRenderSetting_delegate. cbn. by apply lookup_insert_ne.
  - rewrite (SetRenderSetting_world k value w).
    cbn [this rprims sprims bprims diagnostics debug_HD_RENDER_SETTINGS stdout].
    rewrite SetRenderSetting_delegate. cbn. repeat split; reflexivity.
Qed.

Lemma SetRenderSetting_frame_witness :
  let w := World_new (mkEnvironment ∅ ∅ false) ∅ true in
  let w' := SetRenderSetting "shutter" (VtBool true) w in
  HdRenderSettingsTokens.convergedSamplesPerPixel ≠ "shutter" ∧
  GetRenderSettingsMap w' !! HdRenderSettingsTokens.convergedSamplesPerPixel
    = Some (VtInt 64) ∧
  stdout w' = [RenderSettingLine "shutter" (VtBool true)].
Proof.
  intros w w'.
  assert (Hne : HdRenderSettingsTokens.convergedSamplesPerPixel ≠ "shutter")
    by discriminate.
  destruct (SetRenderSetting_frame "shutter" (VtBool true) w)
    as (Hother & _ & _ & _ & _ & _ & _ & _ & Hout).
  refine (conj Hne (conj _ Hout)).
  etransitivity; [exact (Hother _ Hne)|]. vm_compute. reflexivity.
Defined.

(** X2.  The settings version changes exactly when the key had no entry
    or its entry compares unequal to the new value, and then it becomes the
    successor of the old version.  So a NaN always changes it, also over
    itself, and a value that compares equal to the entry, as -0.0 over
    +0.0, replaces the entry without changing it. *)
Theorem SetRenderSetting_version_iff
    (k : TfToken) (value : VtValue) (w : World) :
  let version := fun w => _settingsVersion (this w) in
  (version (SetRenderSetting k value w) ≠ version w <->
   GetRenderSettingsMap w !! k = None ∨
   ∃ prev, GetRenderSettingsMap w !! k = Some prev ∧
           VtValue_ne value prev = true) ∧
  (version (SetRenderSetting k value w) = version w ∨
   version (SetRenderSetting k value w) = uint_incr (version w)) ∧
  (VtValue_is_nan value = true ->
   version (SetRenderSetting k value
              (SetRenderSetting k value w)) ≠
   version (SetRenderSetting k value w)) ∧
  (∀ prev, GetRenderSettingsMap w !! k = Some prev ->
           VtValue_ne value prev = false ->
           version (SetRenderSetting k value w) = version w ∧
           GetRenderSettingsMap (SetRenderSetting k value w) !! k
             = Some value).
Proof.
  cbn beta. unfold GetRenderSettingsMap.
  split; [|split; [|split]].
  - rewrite SetRenderSetting_delegate. cbn. unfold setting_changes.
    destruct (_settingsMap (this w) !! k) as [prev|] eqn:Hk.
    + destruct (VtValue_ne value prev) eqn:Hne.
      * split; [intros _; right; by exists prev|].
        intros _. apply uint_incr_changes.
      * split; [done|]. intros [? | (prev' & [= <-] & Hne')]; congruence.
    + split; [by left|]. intros _. apply uint_incr_changes.
  - rewrite SetRenderSetting_delegate. cbn.
    destruct (setting_changes k value (_settingsMap (this w))); auto.
  - intros Hnan.
    rewrite (SetRenderSetting_delegate k value (SetRenderSetting _ _ _)).
    rewrite SetRenderSetting_delegate. cbn.
    rewrite setting_changes_insert_eq, VtValue_ne_self, Hnan.
    apply uint_incr_changes.
  - intros prev Hk Hsame. split.
    + by apply (SetRenderSetting_same k value prev).
    + apply SetRenderSetting_stored.
Qed.

Lemma SetRenderSetting_version_iff_witness :
  let w := SetRenderSetting "k" (VtFloat 0)
             (World_new (mkEnvironment ∅ ∅ false) ∅ false) in
  let nan := VtFloat 0x7FC00000 in
  let minus_zero := VtFloat 0x80000000 in
  (VtValue_is_nan nan = true ∧
   _settingsVersion (this (SetRenderSetting "k" nan (SetRenderSetting "k" nan w)))
   ≠ _settingsVersion (this (SetRenderSetting "k" nan w))) ∧
  (GetRenderSettingsMap w !! "k" = Some (VtFloat 0) ∧
   VtValue_ne minus_zero (VtFloat 0) = false ∧
   _settingsVersion (this (SetRenderSetting "k" minus_zero w))
     = _settingsVersion (this w) ∧
   GetRenderSettingsMap (SetRenderSetting "k" minus_zero w) !! "k"
     = Some minus_zero).
Proof.
  intros w nan minus_zero.
  assert (Hk : GetRenderSettingsMap w !! "k" = Some (VtFloat 0))
    by (vm_compute; reflexivity).
  destruct (SetRenderSetting_version_iff "k" nan w) as (_ & _ & Hnan & _).
  destruct (SetRenderSetting_version_iff "k" minus_zero w) as (_ & _ & _ & Hzero).
  destruct (Hzero _ Hk eq_refl) as [Hversion Hstored].
  exact (conj (conj eq_refl (Hnan eq_refl))
              (conj Hk (conj eq_refl (conj Hversion Hstored)))).
Defined.

(** X3.  Repeating a [SetRenderSetting] call with a value that compares
    equal to itself changes nothing but the output: the delegate is as
    after the first call, and with the debug switch off so is the whole
    world.  Repeating it with a NaN changes the version again and nothing
    else in the delegate. *)
Theorem SetRenderSetting_idempotent
    (k : TfToken) (value : VtValue) (w : World) :
  let once := SetRenderSetting k value w in
  let twice := SetRenderSetting k value once in
  (VtValue_ne value value = false ->
   this twice = this once ∧
   (debug_HD_RENDER_SETTINGS w = false -> twice = once)) ∧
  (VtValue_ne value value = true ->
   this twice =
   mkDelegate (_settingsMap (this once))
              (uint_incr (_settingsVersion (this once)))
              (_settingDescriptors (this once)) (_renderParam (this once))).
Proof.
  intros once twice.
  assert (Htwice : this twice =
            mkDelegate (_settingsMap (this once))
                       (if VtValue_ne value value
                        then uint_incr (_settingsVersion (this once))
                        else _settingsVersion (this once))
                       (_settingDescriptors (this once))
                       (_renderParam (this once))).
  { subst twice once.
    rewrite (SetRenderSetting_delegate k value (SetRenderSetting _ _ _)).
    rewrite !SetRenderSetting_delegate. cbn.
    by rewrite setting_changes_insert_eq, insert_insert_eq. }
  split; intros Hself; rewrite Hself in Htwice; [|exact Htwice].
  assert (Hthis : this twice = this once)
    by (rewrite Htwice; by destruct (this once)).
  split; [exact Hthis|].
  intros Hdebug. subst twice.
  rewrite (SetRenderSetting_world k value once), Hthis.
  subst once. rewrite (SetRenderSetting_world k value w).
  cbn [this rprims sprims bprims diagnostics debug_HD_RENDER_SETTINGS stdout].
  rewrite Hdebug. reflexivity.
Qed.

Lemma SetRenderSetting_idempotent_witness :
  let w := World_new (mkEnvironment ∅ ∅ false) ∅ false in
  let nan := VtFloat 0x7FC00000 in
  (VtValue_ne (VtInt 7) (VtInt 7) = false ∧
   debug_HD_RENDER_SETTINGS w = false ∧
   SetRenderSetting "k" (VtInt 7) (SetRenderSetting "k" (VtInt 7) w) =
   SetRenderSetting "k" (VtInt 7) w) ∧
  (VtValue_ne nan nan = true ∧
   _settingsVersion
     (this (SetRenderSetting "k" nan (SetRenderSetting "k" nan w))) = 3).
Proof.
  intros w nan.
  destruct (SetRenderSetting_idempotent "k" (VtInt 7) w) as [Hsame _].
  destruct (Hsame eq_refl) as [_ Hworld].
  destruct (SetRenderSetting_idempotent "k" nan w) as [_ Hnan].
  refine (conj (conj eq_refl (conj eq_refl (Hworld eq_refl)))
               (conj eq_refl _)).
  etransitivity; [exact (f_equal _settingsVersion (Hnan eq_refl))|].
  vm_compute. reflexivity.
Defined.

(** X4.  [SetRenderSetting] calls for two different keys commute: either
    order leaves the same delegate, and with the debug switch off the same
    world. *)
Theorem SetRenderSetting_commute
    (k1 k2 : TfToken) (v1 v2 : VtValue) (w : World) :
  k1 ≠ k2 ->
  this (SetRenderSetting k2 v2 (SetRenderSetting k1 v1 w)) =
  this (SetRenderSetting k1 v1 (SetRenderSetting k2 v2 w)) ∧
  (debug_HD_RENDER_SETTINGS w = false ->
   SetRenderSetting k2 v2 (SetRenderSetting k1 v1 w) =
   SetRenderSetting k1 v1 (SetRenderSetting k2 v2 w)).
Proof.
  intros Hne.
  assert (Hthis : this (SetRenderSetting k2 v2 (SetRenderSetting k1 v1 w)) =
                  this (SetRenderSetting k1 v1 (SetRenderSetting k2 v2 w))).
  { rewrite (SetRenderSetting_delegate k2 v2 (SetRenderSetting _ _ _)).
    rewrite (SetRenderSetting_delegate k1 v1 (SetRenderSetting _ _ _)).
    rewrite !SetRenderSetting_delegate. cbn.
    rewrite (setting_changes_insert_ne k2 k1) by done.
    rewrite (setting_changes_insert_ne k1 k2) by done.
    rewrite (insert_insert_ne _ k2 k1) by done.
    destruct (setting_changes k1 v1 (_settingsMap (this w)));
      destruct (setting_changes k2 v2 (_settingsMap (this w))); reflexivity. }
  split; [exact Hthis|]. intros Hdebug.
  rewrite (SetRenderSetting_world k2 v2 (SetRenderSetting k1 v1 w)), Hthis.
  rewrite (SetRenderSetting_world k1 v1 (SetRenderSetting k2 v2 w)).
  rewrite (SetRenderSetting_world k1 v1 w), (SetRenderSetting_world k2 v2 w).
  cbn [this rprims sprims bprims diagnostics debug_HD_RENDER_SETTINGS stdout].
  rewrite Hdebug. reflexivity.
Qed.

Lemma SetRenderSetting_commute_witness :
  let w := World_new (mkEnvironment ∅ ∅ false) ∅ false in
  "a" ≠ "b" ∧ debug_HD_RENDER_SETTINGS w = false ∧
  SetRenderSetting "b" (VtInt 2) (SetRenderSetting "a" (VtInt 1) w) =
  SetRenderSetting "a" (VtInt 1) (SetRenderSetting "b" (VtInt 2) w).
Proof.
  intros w.
  assert (Hne : "a" ≠ "b") by discriminate.
  destruct (SetRenderSetting_commute "a" "b" (VtInt 1) (VtInt 2) w Hne)
    as [_ Hsame].
  exact (conj Hne (conj eq_refl (Hsame eq_refl))).
Defined.

Lemma SetRenderSetting_run_snoc
    (calls : list (TfToken * VtValue)) (call : TfToken * VtValue) (w : World) :
  SetRenderSetting_run (calls ++ [call]) w =
  SetRenderSetting (fst call) (snd call) (SetRenderSetting_run calls w).
Proof. unfold SetRenderSetting_run. by rewrite foldl_app. Qed.

(** X5.  After a sequence of [SetRenderSetting] calls a key holds the value
    of the last call that named it, and what it held before when no call
    named it. *)
Theorem SetRenderSetting_run_last_wins
    (calls : list (TfToken * VtValue)) (w : World) (k : TfToken) :
  GetRenderSettingsMap (SetRenderSetting_run calls w) !! k =
  match last (filter (fun call => fst call = k) calls) with
  | Some call => Some (snd call)
  | None => GetRenderSettingsMap w !! k
  end.
Proof.
  induction calls as [|[k' value] calls IH] using rev_ind; [done|].
  rewrite SetRenderSetting_run_snoc, filter_app. cbn [fst snd].
  unfold GetRenderSettingsMap in *. rewrite SetRenderSetting_delegate.
  cbn [_settingsMap].
  destruct (decide (k' = k)) as [->|Hne].
  - rewrite lookup_insert_eq.
    rewrite (filter_cons_True _ (k, value)) by done.
    rewrite filter_nil. by rewrite last_snoc.
  - rewrite lookup_insert_ne by done.
    rewrite (filter_cons_False _ (k', value)) by done.
    rewrite filter_nil, app_nil_r. exact IH.
Qed.

Example SetRenderSetting_run_example :
  let w := SetRenderSetting_run
             [("a", VtInt 1); ("b", VtInt 2); ("a", VtInt 3); ("a", VtInt 3)]
             (World_new (mkEnvironment ∅ ∅ false) ∅ false) in
  GetRenderSettingsMap w !! "a" = Some (VtInt 3) ∧
  GetRenderSettingsMap w !! "b" = Some (VtInt 2) ∧
  _settingsVersion (this w) = 4.
Proof. vm_compute. done. Qed.

(** ** Render lifecycle *)

(** X6.  Storing a boolean under [enableInteractive] decides whether the
    delegate is interactive from then on, so storing [false] turns stop and
    restart into no-ops; storing anything under another key leaves the
    interactivity as it is. *)
Theorem enableInteractive_switch
    (b : bool) (k : TfToken) (value : VtValue) (w : World) :
  let w' := SetRenderSetting HdRenderSettingsTokens.enableInteractive
                             (VtBool b) w in
  IsInteractive w' = b ∧ IsStopSupported w' = b ∧
  (b = false ->
   IsStopped w' = true ∧ Restart w' = (false, w') ∧
   ∀ blocking, Stop blocking w' = (true, w')) ∧
  (k ≠ HdRenderSettingsTokens.enableInteractive ->
   IsInteractive (SetRenderSetting k value w) = IsInteractive w).
Proof.
  intros w'.
  assert (Hint : IsInteractive w' = b).
  { unfold IsInteractive, GetRenderSetting_bool. subst w'.
    by rewrite SetRenderSetting_stored. }
  split; [exact Hint|]. split; [|split].
  - unfold IsStopSupported. rewrite Hint. by destruct b.
  - intros ->. unfold IsStopped, Restart, Stop. by rewrite Hint.
  - intros Hne. unfold IsInteractive, GetRenderSetting_bool.
    rewrite SetRenderSetting_delegate. cbn.
    by rewrite lookup_insert_ne.
Qed.

Lemma enableInteractive_switch_witness :
  let w := World_new (mkEnvironment ∅ ∅ false) ∅ false in
  let w' := SetRenderSetting HdRenderSettingsTokens.enableInteractive
                             (VtBool false) w in
  IsInteractive w = true ∧ Restart w' = (false, w') ∧
  "shutter" ≠ HdRenderSettingsTokens.enableInteractive ∧
  IsInteractive (SetRenderSetting "shutter" (VtBool false) w) = true.
Proof.
  intros w w'.
  assert (Hne : "shutter" ≠ HdRenderSettingsTokens.enableInteractive)
    by discriminate.
  destruct (enableInteractive_switch false "shutter" (VtBool false) w)
    as (_ & _ & Hoff & Hother).
  destruct (Hoff eq_refl) as (_ & Hrestart & _).
  refine (conj eq_refl (conj Hrestart (conj Hne _))).
  etransitivity; [exact (Hother Hne) | reflexivity].
Defined.

(** X7.  [Stop] returns what [IsStopped] reports right after it; it touches
    nothing but the render param, so the settings, the interactivity, the
    prims and the diagnostics are as before. *)
Theorem Stop_reports_IsStopped (blocking : bool) (w : World) :
  let w' := snd (Stop blocking w) in
  fst (Stop blocking w) = IsStopped w' ∧
  IsInteractive w' = IsInteractive w ∧
  _settingsMap (this w') = _settingsMap (this w) ∧
  _settingsVersion (this w') = _settingsVersion (this w) ∧
  _settingDescriptors (this w') = _settingDescriptors (this w) ∧
  rprims w' = rprims w ∧ sprims w' = sprims w ∧ bprims w' = bprims w ∧
  diagnostics w' = diagnostics w ∧ stdout w' = stdout w.
Proof.
  cbn zeta. unfold Stop, IsStopped.
  destruct (IsInteractive w) eqn:Hint; cbn [fst snd].
  - assert (Hint' : IsInteractive
                      (set_this (set_renderParam (StopRender blocking)) w) = true)
      by exact Hint.
    rewrite Hint'. repeat split; reflexivity.
  - rewrite Hint. repeat split; reflexivity.
Qed.

Lemma Restart_times_S (n : nat) (w : World) :
  Restart_times (S n) w = snd (Restart (Restart_times n w)).
Proof. reflexivity. Qed.

(** X8.  [n] restarts in an interactive configuration advance the scene
    version by [n] in [int] arithmetic and leave the delegate interactive
    and all else in place; in a non-interactive configuration they leave
    the world as it is. *)
Theorem Restart_times_effect (n : nat) (w : World) :
  (IsInteractive w = true ->
   INT_MIN <= sceneVersion (_renderParam (this w)) <= INT_MAX ->
   let w' := Restart_times n w in
   sceneVersion (_renderParam (this w')) =
     int_wrap (sceneVersion (_renderParam (this w)) + Z.of_nat n) ∧
   IsInteractive w' = true ∧
   _settingsMap (this w') = _settingsMap (this w) ∧
   _settingsVersion (this w') = _settingsVersion (this w) ∧
   sceneLightCount w' = sceneLightCount w ∧
   IsStopped w' = IsStopped w) ∧
  (IsInteractive w = false -> Restart_times n w = w).
Proof.
  split.
  - intros Hint Hrange. cbn zeta. induction n as [|n IH].
    + cbn. rewrite Z.add_0_r, int_wrap_small by done. by repeat split.
    + destruct IH as (Hversion & Hint' & Hmap & Hsv & Hcount & Hstopped).
      rewrite Restart_times_S.
      assert (Hstep : snd (Restart (Restart_times n w)) =
                set_this (set_renderParam sceneVersion_incr) (Restart_times n w))
        by (unfold Restart; by rewrite Hint').
      rewrite Hstep. repeat split; try done.
      cbn. rewrite Hversion, int_incr_wrap. f_equal. lia.
  - intros Hni. induction n as [|n IH]; [done|].
    rewrite Restart_times_S, IH. unfold Restart. by rewrite Hni.
Qed.

Lemma Restart_times_effect_witness :
  let w := World_new (mkEnvironment ∅ ∅ false) ∅ false in
  IsInteractive w = true ∧
  INT_MIN <= sceneVersion (_renderParam (this w)) <= INT_MAX ∧
  sceneVersion (_renderParam (this (Restart_times 5 w))) = 5.
Proof.
  intros w.
  assert (Hrange : INT_MIN <= sceneVersion (_renderParam (this w)) <= INT_MAX)
    by (vm_compute; split; discriminate).
  destruct (Restart_times_effect 5 w) as [Hinteractive _].
  destruct (Hinteractive eq_refl Hrange) as [Hversion _].
  refine (conj eq_refl (conj Hrange _)).
  etransitivity; [exact Hversion | reflexivity].
Defined.

(** ** Prim factories: allocation, paths and round trips *)

Ltac solve_supported Heq :=
  rewrite Heq;
  repeat first [ apply list_elem_of_here | apply list_elem_of_further ].

(** A supported tag: the new object sits at the next free address. *)
Ltac solve_allocated :=
  right; world_simpl; cbn [HdSprim_GetId];
  match goal with |- context [<[_ := ?obj]> _] => exists obj end; split;
  [ reflexivity
  | split; [reflexivity | split; [by subst|]];
    match goal with Heq : _ = _ |- _ => solve_supported Heq end ].

Lemma CreateRprim_cases (typeId : TfToken) (rprimId : SdfPath) (w : World) :
  ((typeId ∉ SUPPORTED_RPRIM_TYPES) ∧
   CreateRprim typeId rprimId w =
   (None, TF_CODING_ERROR ("Unknown Rprim Type " +:+ typeId) w)) ∨
  (∃ obj,
     CreateRprim typeId rprimId w =
     (Some (fresh (dom (rprims w))),
      set_rprims (<[fresh (dom (rprims w)) := obj]> (rprims w)) w) ∧
     HdRprim_GetId obj = rprimId ∧ HdRprim_type obj = Some typeId ∧
     typeId ∈ SUPPORTED_RPRIM_TYPES).
Proof.
  unfold CreateRprim.
  repeat (next_typeId typeId; [solve_allocated|]).
  left. split; [|reflexivity].
  unfold SUPPORTED_RPRIM_TYPES. rewrite !elem_of_cons, elem_of_nil. tauto.
Qed.

Lemma CreateBprim_cases (typeId : TfToken) (bprimId : SdfPath) (w : World) :
  ((typeId ∉ SUPPORTED_BPRIM_TYPES) ∧
   CreateBprim typeId bprimId w =
   (None, TF_CODING_ERROR ("Unknown Bprim Type " +:+ typeId) w)) ∨
  (∃ obj,
     CreateBprim typeId bprimId w =
     (Some (fresh (dom (bprims w))),
      set_bprims (<[fresh (dom (bprims w)) := obj]> (bprims w)) w) ∧
     HdBprim_GetId obj = bprimId ∧ HdBprim_type obj = Some typeId ∧
     typeId ∈ SUPPORTED_BPRIM_TYPES).
Proof.
  unfold CreateBprim.
  repeat (next_typeId typeId; [solve_allocated|]).
  left. split; [|reflexivity].
  unfold SUPPORTED_BPRIM_TYPES. rewrite !elem_of_cons, elem_of_nil. tauto.
Qed.

Lemma CreateSprim_cases (typeId : TfToken) (sprimId : SdfPath) (w : World) :
  ((typeId ∉ SUPPORTED_SPRIM_TYPES) ∧
   CreateSprim typeId sprimId w =
   (None, TF_CODING_ERROR ("Unknown Sprim Type " +:+ typeId) w)) ∨
  (∃ obj,
     CreateSprim typeId sprimId w =
     (Some (fresh (dom (sprims w))),
      let w1 := set_sprims (<[fresh (dom (sprims w)) := obj]> (sprims w)) w in
      if nonfallback_light obj
      then set_this (set_renderParam IncreaseSceneLightCount) w1 else w1) ∧
     HdSprim_GetId obj = sprimId ∧ HdSprim_type obj = Some typeId ∧
     typeId ∈ SUPPORTED_SPRIM_TYPES).
Proof.
  unfold CreateSprim, is_light_typeId.
  repeat (next_typeId typeId; [solve_allocated|]).
  left. split; [|reflexivity].
  unfold SUPPORTED_SPRIM_TYPES. rewrite !elem_of_cons, elem_of_nil. tauto.
Qed.

Lemma CreateFallbackSprim_regular (typeId : TfToken) (w : World) :
  CreateFallbackSprim typeId w = CreateSprim typeId SdfPath_EmptyPath w.
Proof.
  unfold CreateFallbackSprim, CreateSprim, is_light_typeId.
  repeat (next_typeId typeId; [reflexivity|]). reflexivity.
Qed.

Lemma CreateFallbackBprim_regular (typeId : TfToken) (w : World) :
  CreateFallbackBprim typeId w = CreateBprim typeId SdfPath_EmptyPath w.
Proof. reflexivity. Qed.

Lemma sprims_if_set_this (c : bool)
    (f : HdPrmanRenderDelegate -> HdPrmanRenderDelegate) (w : World) :
  sprims (if c then set_this f w else w) = sprims w.
Proof. by destruct c. Qed.

Lemma CreateSprim_created_light
    (typeId : TfToken) (sprimId : SdfPath) (w : World) (obj : HdSprim) :
  fst (CreateSprim typeId sprimId w) ≠ None ->
  sprims (snd (CreateSprim typeId sprimId w)) !! fresh (dom (sprims w))
    = Some obj ->
  nonfallback_light obj =
  is_light_typeId typeId && negb (sprimId =? SdfPath_EmptyPath)%string.
Proof.
  unfold CreateSprim, is_light_typeId.
  repeat (next_typeId typeId;
          [ world_simpl; cbn [HdSprim_GetId];
            rewrite ?sprims_if_set_this;
            world_simpl; rewrite lookup_insert_eq;
            intros _ [= <-];
            try match goal with Heq : typeId = _ |- _ => rewrite Heq end;
            reflexivity
          | ]).
  cbn [fst]. intros Hsome. by destruct Hsome.
Qed.

(** X9.  A successful [CreateRprim] or [CreateBprim] returns an address
    that was free, puts there an object with the path and the type given,
    and changes nothing else: every object live before is still there. *)
Theorem CreateRprim_CreateBprim_allocate
    (typeId : TfToken) (id : SdfPath) (w w' : World) (p : positive) :
  (CreateRprim typeId id w = (Some p, w') ->
   rprims w !! p = None ∧
   (∃ obj, rprims w' = <[p := obj]> (rprims w) ∧
           HdRprim_GetId obj = id ∧ HdRprim_type obj = Some typeId) ∧
   (∀ q obj, rprims w !! q = Some obj -> rprims w' !! q = Some obj) ∧
   this w' = this w ∧ sprims w' = sprims w ∧ bprims w' = bprims w ∧
   diagnostics w' = diagnostics w ∧ stdout w' = stdout w) ∧
  (CreateBprim typeId id w = (Some p, w') ->
   bprims w !! p = None ∧
   (∃ obj, bprims w' = <[p := obj]> (bprims w) ∧
           HdBprim_GetId obj = id ∧ HdBprim_type obj = Some typeId) ∧
   (∀ q obj, bprims w !! q = Some obj -> bprims w' !! q = Some obj) ∧
   this w' = this w ∧ rprims w' = rprims w ∧ sprims w' = sprims w ∧
   diagnostics w' = diagnostics w ∧ stdout w' = stdout w).
Proof.
  split; intros Hcreate.
  - destruct (CreateRprim_cases typeId id w)
      as [[_ Herr] | (obj & Hnew & Hid & Htype & _)];
      [congruence|].
    rewrite Hnew in Hcreate. injection Hcreate as <- <-.
    assert (Hfree : rprims w !! fresh (dom (rprims w)) = None)
      by apply not_elem_of_dom, is_fresh.
    split; [exact Hfree|]. split; [by exists obj|].
    split; [|by repeat split].
    intros q obj' Hq. cbn. rewrite lookup_insert_ne; [done|congruence].
  - destruct (CreateBprim_cases typeId id w)
      as [[_ Herr] | (obj & Hnew & Hid & Htype & _)];
      [congruence|].
    rewrite Hnew in Hcreate. injection Hcreate as <- <-.
    assert (Hfree : bprims w !! fresh (dom (bprims w)) = None)
      by apply not_elem_of_dom, is_fresh.
    split; [exact Hfree|]. split; [by exists obj|].
    split; [|by repeat split].
    intros q obj' Hq. cbn. rewrite lookup_insert_ne; [done|congruence].
Qed.

Lemma CreateRprim_CreateBprim_allocate_witness :
  let w := World_new (mkEnvironment ∅ ∅ false) ∅ false in
  let w1 := snd (CreateRprim "mesh" "/World/A" w) in
  let w2 := snd (CreateRprim "points" "/World/B" w1) in
  CreateRprim "points" "/World/B" w1 = (Some 2%positive, w2) ∧
  rprims w1 !! 1%positive = Some (HdPrman_Mesh "/World/A") ∧
  rprims w2 !! 1%positive = Some (HdPrman_Mesh "/World/A") ∧
  CreateBprim "renderBuffer" "/World/C" w
    = (Some 1%positive, snd (CreateBprim "renderBuffer" "/World/C" w)) ∧
  bprims w !! 1%positive = None.
Proof.
  intros w w1 w2.
  assert (Hcreate : CreateRprim "points" "/World/B" w1 = (Some 2%positive, w2))
    by (vm_compute; reflexivity).
  assert (Hlive : rprims w1 !! 1%positive = Some (HdPrman_Mesh "/World/A"))
    by (vm_compute; reflexivity).
  assert (Hbuffer : CreateBprim "renderBuffer" "/World/C" w
            = (Some 1%positive, snd (CreateBprim "renderBuffer" "/World/C" w)))
    by (vm_compute; reflexivity).
  destruct (CreateRprim_CreateBprim_allocate "points" "/World/B" w1 w2 2)
    as [Hr _].
  destruct (Hr Hcreate) as (_ & _ & Hkeep & _).
  destruct (CreateRprim_CreateBprim_allocate "renderBuffer" "/World/C" w
              (snd (CreateBprim "renderBuffer" "/World/C" w)) 1) as [_ Hb].
  destruct (Hb Hbuffer) as (Hfree & _).
  exact (conj Hcreate (conj Hlive (conj (Hkeep _ _ Hlive) (conj Hbuffer Hfree)))).
Defined.

(** X10.  A successful [CreateSprim] returns an address that was free and
    puts there an object with the path and the type given; every Sprim
    live before is still there; the light count goes up by one for a light
    tag with a non-empty path and stays otherwise; settings, scene version,
    other prims and diagnostics are untouched. *)
Theorem CreateSprim_allocate
    (typeId : TfToken) (sprimId : SdfPath) (w w' : World) (p : positive) :
  CreateSprim typeId sprimId w = (Some p, w') ->
  sprims w !! p = None ∧
  (∃ obj, sprims w' = <[p := obj]> (sprims w) ∧
          HdSprim_GetId obj = sprimId ∧ HdSprim_type obj = Some typeId) ∧
  (∀ q obj, sprims w !! q = Some obj -> sprims w' !! q = Some obj) ∧
  sceneLightCount w' =
    (if is_light_typeId typeId && negb (sprimId =? SdfPath_EmptyPath)%string
     then int_incr (sceneLightCount w) else sceneLightCount w) ∧
  sceneVersion (_renderParam (this w')) = sceneVersion (_renderParam (this w)) ∧
  _settingsMap (this w') = _settingsMap (this w) ∧
  _settingsVersion (this w') = _settingsVersion (this w) ∧
  _settingDescriptors (this w') = _settingDescriptors (this w) ∧
  rprims w' = rprims w ∧ bprims w' = bprims w ∧
  diagnostics w' = diagnostics w ∧ stdout w' = stdout w.
Proof.
  intros Hcreate.
  pose proof (CreateSprim_sceneLightCount typeId sprimId w) as Hcount.
  rewrite Hcreate in Hcount. cbn [snd] in Hcount.
  destruct (CreateSprim_cases typeId sprimId w)
    as [[_ Herr] | (obj & Hnew & Hid & Htype & _)];
    [congruence|].
  rewrite Hnew in Hcreate. injection Hcreate as <- <-.
  split; [apply fresh_sprim_free|].
  assert (Hheap : ∀ w1, sprims (if nonfallback_light obj
                    then set_this (set_renderParam IncreaseSceneLightCount) w1
                    else w1) = sprims w1)
    by (intros w1; by destruct (nonfallback_light obj)).
  cbn zeta. rewrite Hheap. cbn [sprims set_sprims].
  split; [by exists obj|]. split.
  { intros q obj' Hq. rewrite lookup_insert_ne; [done|].
    intros <-. by rewrite fresh_sprim_free in Hq. }
  split; [exact Hcount|].
  destruct (nonfallback_light obj); by repeat split.
Qed.

Lemma CreateSprim_allocate_witness :
  let w := World_new (mkEnvironment ∅ ∅ false) ∅ false in
  let w' := snd (CreateSprim "diskLight" "/World/Disk" w) in
  CreateSprim "diskLight" "/World/Disk" w = (Some 1%positive, w') ∧
  sceneLightCount w' = 1.
Proof.
  intros w w'.
  assert (Hcreate : CreateSprim "diskLight" "/World/Disk" w = (Some 1%positive, w'))
    by (vm_compute; reflexivity).
  destruct (CreateSprim_allocate _ _ _ _ _ Hcreate) as (_ & _ & _ & Hcount & _).
  refine (conj Hcreate _).
  etransitivity; [exact Hcount | reflexivity].
Defined.

(** X11.  A fallback factory is the regular factory at the empty path, for
    every tag, supported or not: same result, same world. *)
Theorem fallback_is_regular_at_empty_path (typeId : TfToken) (w : World) :
  CreateFallbackSprim typeId w = CreateSprim typeId SdfPath_EmptyPath w ∧
  CreateFallbackBprim typeId w = CreateBprim typeId SdfPath_EmptyPath w.
Proof.
  split; [apply CreateFallbackSprim_regular | apply CreateFallbackBprim_regular].
Qed.

(** X12.  Destroying the Rprim or Bprim a factory call has just returned
    undoes the call: the world is as before it. *)
Theorem Rprim_Bprim_create_destroy
    (typeId : TfToken) (id : SdfPath) (w w1 : World) (p : positive) :
  (CreateRprim typeId id w = (Some p, w1) -> DestroyRprim p w1 = Some w) ∧
  (CreateBprim typeId id w = (Some p, w1) -> DestroyBprim p w1 = Some w).
Proof.
  split; intros Hcreate.
  - destruct (CreateRprim_cases typeId id w)
      as [[_ Herr] | (obj & Hnew & _)]; [congruence|].
    rewrite Hnew in Hcreate. injection Hcreate as <- <-.
    unfold DestroyRprim. cbn [rprims set_rprims].
    rewrite lookup_insert_eq. f_equal.
    rewrite delete_insert_id by apply not_elem_of_dom, is_fresh.
    by destruct w.
  - destruct (CreateBprim_cases typeId id w)
      as [[_ Herr] | (obj & Hnew & _)]; [congruence|].
    rewrite Hnew in Hcreate. injection Hcreate as <- <-.
    unfold DestroyBprim. cbn [bprims set_bprims].
    rewrite lookup_insert_eq. f_equal.
    rewrite delete_insert_id by apply not_elem_of_dom, is_fresh.
    by destruct w.
Qed.

Lemma Rprim_Bprim_create_destroy_witness :
  let w := snd (CreateRprim "mesh" "/World/A"
                  (World_new (mkEnvironment ∅ ∅ false) ∅ false)) in
  let w1 := snd (CreateRprim "volume" "/World/Smoke" w) in
  let w2 := snd (CreateBprim "field3dAsset" "/World/Density" w) in
  CreateRprim "volume" "/World/Smoke" w = (Some 2%positive, w1) ∧
  DestroyRprim 2%positive w1 = Some w ∧
  CreateBprim "field3dAsset" "/World/Density" w = (Some 1%positive, w2) ∧
  DestroyBprim 1%positive w2 = Some w.
Proof.
  intros w w1 w2.
  assert (Hr : CreateRprim "volume" "/World/Smoke" w = (Some 2%positive, w1))
    by (vm_compute; reflexivity).
  assert (Hb : CreateBprim "field3dAsset" "/World/Density" w
               = (Some 1%positive, w2))
    by (vm_compute; reflexivity).
  destruct (Rprim_Bprim_create_destroy "volume" "/World/Smoke" w w1 2)
    as [Hundo_r _].
  destruct (Rprim_Bprim_create_destroy "field3dAsset" "/World/Density" w w2 1)
    as [_ Hundo_b].
  exact (conj Hr (conj (Hundo_r Hr) (conj Hb (Hundo_b Hb)))).
Defined.

Lemma nonfallback_light_path (obj : HdSprim) :
  nonfallback_light obj = true ->
  (HdSprim_GetId obj =? SdfPath_EmptyPath)%string = false.
Proof.
  destruct obj; cbn; try discriminate. by intros ->%negb_true_iff.
Qed.

Lemma CreateSprim_created (typeId : TfToken) (sprimId : SdfPath)
    (w w1 : World) (p : positive) :
  CreateSprim typeId sprimId w = (Some p, w1) ->
  ∃ obj,
    p = fresh (dom (sprims w)) ∧
    w1 = (let w1 := set_sprims (<[p := obj]> (sprims w)) w in
          if nonfallback_light obj
          then set_this (set_renderParam IncreaseSceneLightCount) w1
          else w1) ∧
    HdSprim_GetId obj = sprimId ∧
    nonfallback_light obj =
      is_light_typeId typeId && negb (sprimId =? SdfPath_EmptyPath)%string.
Proof.
  intros Hcreate.
  destruct (CreateSprim_cases typeId sprimId w)
    as [[_ Herr] | (obj & Hnew & Hid & _)]; [congruence|].
  pose proof (CreateSprim_created_light typeId sprimId w obj) as Hlight.
  rewrite Hnew in Hlight, Hcreate. injection Hcreate as <- <-.
  exists obj. repeat split; [done|].
  apply Hlight; [done|]. cbn [snd].
  rewrite sprims_if_set_this. apply lookup_insert_eq.
Qed.

(** X13.  Destroying the Sprim [CreateSprim] has just returned puts the
    world back as it was when the Sprim is a light or has the empty path;
    for any other Sprim it puts everything back but the light count, which
    ends one below where it was. *)
Theorem Sprim_create_destroy
    (typeId : TfToken) (sprimId : SdfPath) (w w1 : World) (p : positive) :
  CreateSprim typeId sprimId w = (Some p, w1) ->
  INT_MIN <= sceneLightCount w <= INT_MAX ->
  ∃ w2,
    DestroySprim p w1 = Some w2 ∧
    (is_light_typeId typeId = true ∨ sprimId = SdfPath_EmptyPath -> w2 = w) ∧
    (is_light_typeId typeId = false -> sprimId ≠ SdfPath_EmptyPath ->
     w2 = set_this (set_renderParam DecreaseSceneLightCount) w ∧
     sceneLightCount w2 = int_decr (sceneLightCount w)).
Proof.
  intros Hcreate Hrange.
  destruct (CreateSprim_created _ _ _ _ _ Hcreate)
    as (obj & -> & -> & Hid & Hlight).
  pose proof (fresh_sprim_free w) as Hfree. clear Hcreate.
  remember (fresh (dom (sprims w))) as p eqn:Hp. clear Hp.
  destruct w as [[m v ds [variant sv count rendering stop]] rs ss bs diag dbg out].
  unfold sceneLightCount in *. cbn in Hrange, Hfree.
  unfold DestroySprim. cbn zeta.
  rewrite sprims_if_set_this. cbn [sprims set_sprims].
  rewrite lookup_insert_eq, Hid.
  destruct (String.eqb_spec sprimId SdfPath_EmptyPath) as [Hempty|Hempty];
    destruct (is_light_typeId typeId) eqn:Htag;
    cbn in Hlight; rewrite Hlight; cbn -[int_incr int_decr];
    rewrite delete_insert_id by done;
    eexists; (split; [reflexivity|]); split.
  all: unfold set_sprims, set_this, set_renderParam, IncreaseSceneLightCount,
         DecreaseSceneLightCount;
       cbn -[int_incr int_decr]; rewrite ?int_decr_incr by done.
  all: try (intros [Htrue | Hpath]); intros; try discriminate; try congruence.
  all: by split.
Qed.

Lemma Sprim_create_destroy_witness :
  let w := World_new (mkEnvironment ∅ ∅ false) ∅ false in
  let w1 := snd (CreateSprim "material" "/World/Looks/M" w) in
  CreateSprim "material" "/World/Looks/M" w = (Some 1%positive, w1) ∧
  INT_MIN <= sceneLightCount w <= INT_MAX ∧
  is_light_typeId "material" = false ∧ "/World/Looks/M" ≠ SdfPath_EmptyPath ∧
  ∃ w2, DestroySprim 1%positive w1 = Some w2 ∧ sceneLightCount w2 = -1.
Proof.
  intros w w1.
  assert (Hcreate : CreateSprim "material" "/World/Looks/M" w
                    = (Some 1%positive, w1)) by (vm_compute; reflexivity).
  assert (Hrange : INT_MIN <= sceneLightCount w <= INT_MAX)
    by (vm_compute; split; discriminate).
  assert (Hne : "/World/Looks/M" ≠ SdfPath_EmptyPath) by discriminate.
  destruct (Sprim_create_destroy _ _ _ _ _ Hcreate Hrange)
    as (w2 & Hdestroy & _ & Hother).
  destruct (Hother eq_refl Hne) as [_ Hcount].
  refine (conj Hcreate (conj Hrange (conj eq_refl (conj Hne
            (ex_intro _ w2 (conj Hdestroy _)))))).
  etransitivity; [exact Hcount | reflexivity].
Defined.

(** ** Runs of the Sprim factory with any tags *)

Lemma SprimCall_step_create (typeId : TfToken) (sprimId : SdfPath)
    (w : World) :
  snd (CreateSprim typeId sprimId w) =
    TF_CODING_ERROR ("Unknown Sprim Type " +:+ typeId) w ∧
    typeId ∉ SUPPORTED_SPRIM_TYPES ∨
  ∃ obj,
    snd (CreateSprim typeId sprimId w) =
      (let w1 := set_sprims (<[fresh (dom (sprims w)) := obj]> (sprims w)) w in
       if nonfallback_light obj
       then set_this (set_renderParam IncreaseSceneLightCount) w1 else w1) ∧
    typeId ∈ SUPPORTED_SPRIM_TYPES.
Proof.
  destruct (CreateSprim_cases typeId sprimId w)
    as [[Hnot ->] | (obj & -> & _ & _ & Hin)]; [by left|].
  right. by exists obj.
Qed.

Lemma SprimCall_step_light_count (call : SprimCall) (w w' : World) (d : Z) :
  SprimCall_step call w = Some w' ->
  sceneLightCount w = int_wrap (Z.of_nat (live_nonfallback_lights w) - d) ->
  sceneLightCount w' =
  int_wrap (Z.of_nat (live_nonfallback_lights w') - d
            - Z.of_nat (SprimCall_miscounts [call] w)).
Proof.
  intros Hstep Hcount.
  assert (Hcreate : ∀ typeId sprimId,
            sceneLightCount (snd (CreateSprim typeId sprimId w)) =
            int_wrap (Z.of_nat (live_nonfallback_lights
                                  (snd (CreateSprim typeId sprimId w))) - d)).
  { intros typeId sprimId.
    destruct (SprimCall_step_create typeId sprimId w)
      as [[-> _] | (obj & -> & _)]; [exact Hcount|].
    pose proof (live_lights_insert (sprims w) _ obj (fresh_sprim_free w))
      as Hsize.
    unfold sceneLightCount, live_nonfallback_lights in *. cbn zeta.
    rewrite sprims_if_set_this. cbn [sprims set_sprims]. rewrite Hsize.
    destruct (nonfallback_light obj); cbn; rewrite Hcount; [|done].
    rewrite int_incr_wrap. f_equal; lia. }
  destruct call as [typeId sprimId | typeId | sprim]; cbn in Hstep |- *.
  - injection Hstep as <-. rewrite Hcreate. f_equal; lia.
  - injection Hstep as <-. rewrite CreateFallbackSprim_regular, Hcreate.
    f_equal; lia.
  - rewrite Hstep.
    destruct (sprims w !! sprim) as [obj|] eqn:Hlive;
      [|by unfold DestroySprim in Hstep; rewrite Hlive in Hstep].
    destruct (DestroySprim_sceneLightCount sprim obj w Hlive)
      as (w2 & Hdestroy & Hheap & Hcount2).
    rewrite Hdestroy in Hstep. injection Hstep as <-.
    pose proof (live_lights_delete (sprims w) sprim obj Hlive) as Hsize.
    unfold miscounted.
    unfold sceneLightCount, live_nonfallback_lights in *.
    rewrite Hheap, Hcount2, Hcount, Hsize.
    destruct (nonfallback_light obj) eqn:Hlight.
    + rewrite (nonfallback_light_path obj Hlight). cbn.
      rewrite int_decr_wrap. f_equal; lia.
    + destruct (HdSprim_GetId obj =? SdfPath_EmptyPath)%string; cbn.
      * f_equal; lia.
      * rewrite int_decr_wrap. f_equal; lia.
Qed.

Lemma SprimCall_miscounts_cons (call : SprimCall) (rest : list SprimCall)
    (w w' : World) :
  SprimCall_step call w = Some w' ->
  SprimCall_miscounts (call :: rest) w =
  (SprimCall_miscounts [call] w + SprimCall_miscounts rest w')%nat.
Proof. intros Hstep. cbn. rewrite Hstep. cbn. lia. Qed.

Lemma SprimCall_run_light_count (calls : list SprimCall) (w w' : World) (d : Z) :
  SprimCall_run calls w = Some w' ->
  sceneLightCount w = int_wrap (Z.of_nat (live_nonfallback_lights w) - d) ->
  sceneLightCount w' =
  int_wrap (Z.of_nat (live_nonfallback_lights w') - d
            - Z.of_nat (SprimCall_miscounts calls w)).
Proof.
  revert w d. induction calls as [|call rest IH]; intros w d Hrun Hcount.
  - injection Hrun as <-. rewrite Hcount. cbn. f_equal; lia.
  - cbn in Hrun. destruct (SprimCall_step call w) as [w1|] eqn:Hstep; [|done].
    rewrite (SprimCall_miscounts_cons call rest w w1 Hstep).
    rewrite (IH w1 (d + Z.of_nat (SprimCall_miscounts [call] w)) Hrun).
    + f_equal; lia.
    + rewrite (SprimCall_step_light_count call w w1 d Hstep Hcount).
      f_equal; lia.
Qed.

(** X14.  After any sequence of Sprim factory calls on a new delegate, with
    tags of any kind, the light count is the number of live lights created
    with a non-empty path minus the number of destroy calls so far that hit
    a Sprim with a non-empty path that is not such a light (in [int]
    arithmetic). *)
Theorem light_count_any_tags
    (env : Environment) (settingsMap : gmap string VtValue) (debug : bool)
    (calls : list SprimCall) (w : World) :
  SprimCall_run calls (World_new env settingsMap debug) = Some w ->
  sceneLightCount w =
  int_wrap (Z.of_nat (live_nonfallback_lights w)
            - Z.of_nat (SprimCall_miscounts calls
                          (World_new env settingsMap debug))).
Proof.
  intros Hrun.
  destruct (World_new_accounted env settingsMap debug) as [_ Hcount].
  rewrite (SprimCall_run_light_count calls _ w 0 Hrun).
  - f_equal; lia.
  - rewrite Hcount. f_equal; lia.
Qed.

Lemma light_count_any_tags_witness :
  let w0 := World_new (mkEnvironment ∅ ∅ false) ∅ false in
  let calls :=
    [ Call_CreateSprim HdPrimTypeTokens.camera "/World/Camera";
      Call_CreateSprim HdPrimTypeTokens.sphereLight "/World/Key";
      Call_CreateSprim HdPrimTypeTokens.material "/World/Looks/M";
      Call_DestroySprim 1%positive;
      Call_DestroySprim 3%positive ] in
  let w := default w0 (SprimCall_run calls w0) in
  SprimCall_run calls w0 = Some w ∧
  live_nonfallback_lights w = 1%nat ∧
  SprimCall_miscounts calls w0 = 2%nat ∧
  sceneLightCount w = -1.
Proof.
  intros w0 calls w.
  assert (Hrun : SprimCall_run calls w0 = Some w) by (vm_compute; reflexivity).
  refine (conj Hrun (conj _ (conj _ _))); [vm_compute; reflexivity..|].
  etransitivity;
    [exact (light_count_any_tags _ _ _ calls w Hrun) | vm_compute; reflexivity].
Defined.

Lemma diagnostics_if_set_this (c : bool)
    (f : HdPrmanRenderDelegate -> HdPrmanRenderDelegate) (w : World) :
  diagnostics (if c then set_this f w else w) = diagnostics w.
Proof. by destruct c. Qed.

Lemma SprimCall_step_diagnostics (call : SprimCall) (w w' : World) :
  SprimCall_step call w = Some w' ->
  diagnostics w' = (diagnostics w ++ SprimCall_diagnostics call)%list.
Proof.
  intros Hstep.
  assert (Hcreate : ∀ typeId sprimId,
            diagnostics (snd (CreateSprim typeId sprimId w)) =
            (diagnostics w ++
             (if bool_decide (typeId ∈ SUPPORTED_SPRIM_TYPES) then []
              else [TfCodingError ("Unknown Sprim Type " +:+ typeId)]))%list).
  { intros typeId sprimId.
    destruct (SprimCall_step_create typeId sprimId w)
      as [[-> Hnot] | (obj & -> & Hin)].
    - by rewrite bool_decide_eq_false_2.
    - rewrite bool_decide_eq_true_2 by done. cbn zeta.
      rewrite diagnostics_if_set_this. cbn. by rewrite app_nil_r. }
  destruct call as [typeId sprimId | typeId | sprim]; cbn in Hstep |- *.
  - injection Hstep as <-. apply Hcreate.
  - injection Hstep as <-. rewrite CreateFallbackSprim_regular. apply Hcreate.
  - unfold DestroySprim in Hstep.
    destruct (sprims w !! sprim) as [obj|]; [|done].
    injection Hstep as <-. rewrite app_nil_r.
    by destruct (negb (HdSprim_GetId obj =? SdfPath_EmptyPath)%string).
Qed.

(** X15.  Over any sequence of Sprim factory calls the diagnostic channel
    grows by exactly one coding error per create call with an unsupported
    tag, in call order, naming the tag; supported creates and destroys
    report nothing. *)
Theorem SprimCall_run_diagnostics
    (calls : list SprimCall) (w w' : World) :
  SprimCall_run calls w = Some w' ->
  diagnostics w' =
  (diagnostics w ++ concat (map SprimCall_diagnostics calls))%list.
Proof.
  revert w. induction calls as [|call rest IH]; intros w Hrun.
  - injection Hrun as <-. cbn. by rewrite app_nil_r.
  - cbn in Hrun. destruct (SprimCall_step call w) as [w1|] eqn:Hstep; [|done].
    rewrite (IH w1 Hrun), (SprimCall_step_diagnostics call w w1 Hstep).
    cbn. by rewrite <- app_assoc.
Qed.

Lemma SprimCall_run_diagnostics_witness :
  let w0 := World_new (mkEnvironment ∅ ∅ false) ∅ false in
  let calls :=
    [ Call_CreateSprim "teapot" "/World/Pot";
      Call_CreateSprim HdPrimTypeTokens.camera "/World/Camera";
      Call_CreateFallbackSprim "drawTarget";
      Call_DestroySprim 1%positive ] in
  let w := default w0 (SprimCall_run calls w0) in
  SprimCall_run calls w0 = Some w ∧
  diagnostics w = [ TfCodingError "Unknown Sprim Type teapot";
                    TfCodingError "Unknown Sprim Type drawTarget" ].
Proof.
  intros w0 calls w.
  assert (Hrun : SprimCall_run calls w0 = Some w) by (vm_compute; reflexivity).
  refine (conj Hrun _).
  etransitivity;
    [exact (SprimCall_run_diagnostics calls w0 w Hrun) | vm_compute; reflexivity].
Defined.

Lemma CreateRprim_some_supported (typeId : TfToken) (id : SdfPath) (w : World) :
  fst (CreateRprim typeId id w) ≠ None -> typeId ∈ SUPPORTED_RPRIM_TYPES.
Proof.
  destruct (CreateRprim_cases typeId id w)
    as [[_ ->] | (obj & _ & _ & _ & Hin)]; [by intros []|done].
Qed.

Lemma CreateSprim_some_supported (typeId : TfToken) (id : SdfPath) (w : World) :
  fst (CreateSprim typeId id w) ≠ None -> typeId ∈ SUPPORTED_SPRIM_TYPES.
Proof.
  destruct (CreateSprim_cases typeId id w)
    as [[_ ->] | (obj & _ & _ & _ & Hin)]; [by intros []|done].
Qed.

Lemma CreateBprim_some_supported (typeId : TfToken) (id : SdfPath) (w : World) :
  fst (CreateBprim typeId id w) ≠ None -> typeId ∈ SUPPORTED_BPRIM_TYPES.
Proof.
  destruct (CreateBprim_cases typeId id w)
    as [[_ ->] | (obj & _ & _ & _ & Hin)]; [by intros []|done].
Qed.

Ltac each_supported Hin :=
  repeat (apply elem_of_cons in Hin as [-> | Hin]);
  [.. | by apply elem_of_nil in Hin].

(** X16.  No tag is served by two prim categories: when one of
    [CreateRprim], [CreateSprim], [CreateBprim] returns an object for a
    tag, the other two return the null pointer for it. *)
Theorem factories_exclusive (typeId : TfToken) (id : SdfPath) (w : World) :
  (fst (CreateRprim typeId id w) ≠ None ->
   fst (CreateSprim typeId id w) = None ∧
   fst (CreateBprim typeId id w) = None) ∧
  (fst (CreateSprim typeId id w) ≠ None ->
   fst (CreateRprim typeId id w) = None ∧
   fst (CreateBprim typeId id w) = None) ∧
  (fst (CreateBprim typeId id w) ≠ None ->
   fst (CreateRprim typeId id w) = None ∧
   fst (CreateSprim typeId id w) = None).
Proof.
  split; [|split]; intros Hsome.
  - apply CreateRprim_some_supported in Hsome.
    unfold SUPPORTED_RPRIM_TYPES in Hsome.
    each_supported Hsome; by split.
  - apply CreateSprim_some_supported in Hsome.
    unfold SUPPORTED_SPRIM_TYPES in Hsome.
    each_supported Hsome; by split.
  - apply CreateBprim_some_supported in Hsome.
    unfold SUPPORTED_BPRIM_TYPES in Hsome.
    each_supported Hsome; by split.
Qed.

Lemma factories_exclusive_witness :
  let w := World_new (mkEnvironment ∅ ∅ false) ∅ false in
  fst (CreateSprim "coordSys" "/World/Space" w) ≠ None ∧
  fst (CreateRprim "coordSys" "/World/Space" w) = None ∧
  fst (CreateBprim "coordSys" "/World/Space" w) = None.
Proof.
  intros w.
  assert (Hsome : fst (CreateSprim "coordSys" "/World/Space" w) ≠ None)
    by (vm_compute; discriminate).
  destruct (factories_exclusive "coordSys" "/World/Space" w) as (_ & Hs & _).
  exact (conj Hsome (Hs Hsome)).
Defined.

(** ** The variant name *)

Lemma tolower_not_upper (c : ascii) : isupper (tolower c) = false.
Proof. destruct c as [[] [] [] [] [] [] [] []]; reflexivity. Qed.

Lemma tolower_fixes_non_upper (c : ascii) :
  isupper c = false -> tolower c = c.
Proof. unfold tolower, isupper. cbn zeta. by intros ->. Qed.

(** X17.  [_ToLower] keeps the length, leaves no upper-case letter, changes
    nothing in a string without upper-case letters, and so is idempotent. *)
Theorem _ToLower_properties (s : string) :
  String.length (_ToLower s) = String.length s ∧
  string_forallb (fun c => negb (isupper c)) (_ToLower s) = true ∧
  (string_forallb (fun c => negb (isupper c)) s = true -> _ToLower s = s) ∧
  _ToLower (_ToLower s) = _ToLower s.
Proof.
  assert (Hlower : ∀ t, string_forallb (fun c => negb (isupper c)) (_ToLower t)
                        = true).
  { induction t as [|c t IH]; [done|].
    cbn. by rewrite tolower_not_upper, IH. }
  assert (Hfix : ∀ t, string_forallb (fun c => negb (isupper c)) t = true ->
                      _ToLower t = t).
  { induction t as [|c t IH]; [done|].
    cbn. intros [Hc Ht]%andb_true_iff.
    apply negb_true_iff in Hc.
    by rewrite (tolower_fixes_non_upper c Hc), IH. }
  split; [|split; [apply Hlower | split; [apply Hfix | apply Hfix, Hlower]]].
  induction s as [|c s IH]; [done|]. cbn. by rewrite IH.
Qed.

Lemma _ToLower_properties_witness :
  string_forallb (fun c => negb (isupper c)) "xpu-2" = true ∧
  _ToLower "xpu-2" = "xpu-2" ∧ _ToLower "XPU-2" = "xpu-2".
Proof.
  destruct (_ToLower_properties "xpu-2") as (_ & _ & Hfix & _).
  exact (conj eq_refl (conj (Hfix eq_refl) eq_refl)).
Defined.

Lemma _ToLower_lower (s : string) :
  string_forallb (fun c => negb (isupper c)) (_ToLower s) = true.
Proof.
  induction s as [|c s IH]; [done|]. cbn. by rewrite tolower_not_upper, IH.
Qed.

(** X18.  The variant name the render param is constructed with is the
    lower-cased string stored under the [rileyVariant] setting when the
    settings map given to the constructor has one, and the lower-cased
    RILEY_VARIANT of the environment when the map has no entry for it;
    [_Initialize] does not change it, and it holds no upper-case letter. *)
Theorem HdPrmanRenderDelegate_new_rileyVariant
    (env : Environment) (settingsMap : gmap string VtValue) :
  let variant :=
    rileyVariant (_renderParam (HdPrmanRenderDelegate_new env settingsMap)) in
  (∀ s, settingsMap !! HdPrmanRenderSettingsTokens.rileyVariant
        = Some (VtString s) -> variant = _ToLower s) ∧
  (settingsMap !! HdPrmanRenderSettingsTokens.rileyVariant = None ->
   variant = _ToLower (TfGetenv env "RILEY_VARIANT")) ∧
  string_forallb (fun c => negb (isupper c)) variant = true.
Proof.
  cbn zeta. unfold HdPrmanRenderDelegate_new.
  rewrite _Initialize_renderParam. cbn [_renderParam rileyVariant].
  unfold GetRenderSetting_string. split; [|split].
  - by intros s ->.
  - by intros ->.
  - apply _ToLower_lower.
Qed.

Lemma HdPrmanRenderDelegate_new_rileyVariant_witness :
  let env := mkEnvironment (<["RILEY_VARIANT" := "XPU"]> ∅) ∅ false in
  let given :=
    <[HdPrmanRenderSettingsTokens.rileyVariant := VtString "Prman-CPU"]> ∅ in
  given !! HdPrmanRenderSettingsTokens.rileyVariant
    = Some (VtString "Prman-CPU") ∧
  rileyVariant (_renderParam (HdPrmanRenderDelegate_new env given))
    = "prman-cpu" ∧
  (∅ : gmap string VtValue) !! HdPrmanRenderSettingsTokens.rileyVariant
    = None ∧
  rileyVariant (_renderParam (HdPrmanRenderDelegate_new env ∅)) = "xpu".
Proof.
  intros env given.
  assert (Hgiven : given !! HdPrmanRenderSettingsTokens.rileyVariant
                   = Some (VtString "Prman-CPU")) by (vm_compute; reflexivity).
  destruct (HdPrmanRenderDelegate_new_rileyVariant env given) as (Hset & _).
  destruct (HdPrmanRenderDelegate_new_rileyVariant env ∅) as (_ & Henv & _).
  refine (conj Hgiven (conj _ (conj eq_refl _))).
  - etransitivity; [exact (Hset _ Hgiven) | reflexivity].
  - etransitivity; [exact (Henv eq_refl) | vm_compute; reflexivity].
Defined.

(** ** Default AOV descriptors *)

(** X19.  [GetDefaultAovDescriptor] never fails on a name: in a
    non-interactive configuration it returns the default-constructed
    descriptor for every name; in an interactive one it returns a
    descriptor that is not multi-sampled and whose clear value is of the
    kind its format stores, and a name that is none of color, depth, primId,
    instanceId, elementId falls through to a three-float format cleared to
    zero. *)
Theorem GetDefaultAovDescriptor_properties (name : TfToken) (w : World) :
  (IsInteractive w = false ->
   GetDefaultAovDescriptor name w = HdAovDescriptor_default) ∧
  (IsInteractive w = true ->
   ∃ format clearValue,
     GetDefaultAovDescriptor name w =
       HdAovDescriptor_of format false clearValue ∧
     clear_value_fits format clearValue = true ∧
     (name ∉ [ HdAovTokens.color; HdAovTokens.depth; HdAovTokens.primId;
               HdAovTokens.instanceId; HdAovTokens.elementId ] ->
      format = HdFormatFloat32Vec3 ∧
      clearValue = ClearVec3f float_zero_bits)).
Proof.
  unfold GetDefaultAovDescriptor. split; intros ->; [done|].
  repeat (next_typeId name;
          [ eexists _, _; split; [reflexivity|]; split; [reflexivity|];
            intros Hnot; exfalso; apply Hnot;
            match goal with Heq : name = _ |- _ => solve_supported Heq end
          | ]).
  eexists _, _. by repeat split.
Qed.

Lemma GetDefaultAovDescriptor_properties_witness :
  let w := World_new (mkEnvironment ∅ ∅ false) ∅ false in
  let batch := SetRenderSetting HdRenderSettingsTokens.enableInteractive
                                (VtBool false) w in
  (IsInteractive batch = false ∧
   GetDefaultAovDescriptor HdAovTokens.color batch = HdAovDescriptor_default) ∧
  (IsInteractive w = true ∧
   ("normal" ∉ [ HdAovTokens.color; HdAovTokens.depth; HdAovTokens.primId;
                 HdAovTokens.instanceId; HdAovTokens.elementId ]) ∧
   GetDefaultAovDescriptor "normal" w =
     HdAovDescriptor_of HdFormatFloat32Vec3 false (ClearVec3f 0)).
Proof.
  intros w batch.
  assert (Hnot : "normal" ∉ [ HdAovTokens.color; HdAovTokens.depth;
                              HdAovTokens.primId; HdAovTokens.instanceId;
                              HdAovTokens.elementId ])
    by (apply (bool_decide_unpack _); vm_compute; exact I).
  destruct (GetDefaultAovDescriptor_properties HdAovTokens.color batch)
    as [Hbatch _].
  destruct (GetDefaultAovDescriptor_properties "normal" w) as [_ Hlive].
  destruct (Hlive eq_refl) as (format & clearValue & Hdesc & _ & Hfall).
  destruct (Hfall Hnot) as [-> ->].
  exact (conj (conj eq_refl (Hbatch eq_refl)) (conj eq_refl (conj Hnot Hdesc))).
Defined.

Example GetDefaultAovDescriptor_ids :
  let w := World_new (mkEnvironment ∅ ∅ false) ∅ false in
  map (fun name => GetDefaultAovDescriptor name w)
      [HdAovTokens.depth; HdAovTokens.instanceId] =
  [ HdAovDescriptor_of HdFormatFloat32 false (ClearScalar (VtFloat 0x3F800000));
    HdAovDescriptor_of HdFormatInt32 false (ClearScalar (VtInt (-1))) ].
Proof. reflexivity. Qed.

(** ** The render pass *)

Section RenderPassProperties.

Context {HdRenderIndex HdRprimCollection : Type}.

Lemma CreateRenderPass_run_existing
    (calls : list (HdRenderIndex * HdRprimCollection))
    (pass : @HdPrman_RenderPass HdRenderIndex HdRprimCollection) :
  CreateRenderPass_run calls (Some pass) = replicate (length calls) pass.
Proof.
  induction calls as [|[index collection] rest IH]; [done|].
  cbn. by rewrite IH.
Qed.

(** X20.  The delegate makes one render pass: the first [CreateRenderPass]
    call makes it from its index and collection, every later call returns
    that pass whatever index and collection it is given, and the member
    holding it does not change again. *)
Theorem CreateRenderPass_single
    (index : HdRenderIndex) (collection : HdRprimCollection)
    (calls : list (HdRenderIndex * HdRprimCollection)) :
  let first := mkRenderPass index collection in
  CreateRenderPass index collection None = (first, Some first) ∧
  CreateRenderPass_run ((index, collection) :: calls) None =
    replicate (S (length calls)) first ∧
  (∀ index' collection',
     CreateRenderPass index' collection' (Some first) = (first, Some first)).
Proof.
  cbn zeta. split; [done|]. split; [|done].
  cbn. by rewrite CreateRenderPass_run_existing.
Qed.

End RenderPassProperties.

Example CreateRenderPass_second_call :
  CreateRenderPass_run [(1%nat, "geometry"); (2%nat, "guides")] None =
  [mkRenderPass 1%nat "geometry"; mkRenderPass 1%nat "geometry"].
Proof. reflexivity. Qed.

(** ** The engine wrapper: what the tuple leaves out *)

Section WrapEngineFurther.

Context {GfMatrix4d UsdPrim UsdImagingGLRenderParams double : Type}.
Context {Engine Engine2 : Type}.
Context `{!@UsdImagingGLEngine GfMatrix4d UsdPrim UsdImagingGLRenderParams
             double Engine}.
Context (methods2 : @UsdImagingGLEngine GfMatrix4d UsdPrim
                      UsdImagingGLRenderParams double Engine2).

(** X21.  The tuple of the intersection test carries neither the engine's
    boolean result nor [hitInstancerPath]: two tests that agree on hit
    point, normal, prim path, instance index and the first context entry
    give the same tuple.  A test that leaves its out-parameters as they
    were, as on a miss, gives zero vectors, empty paths and -1 twice. *)
Theorem TestIntersection_tuple_inputs
    (self : Engine) (self2 : Engine2)
    (viewMatrix projectionMatrix viewMatrix2 projectionMatrix2 : GfMatrix4d)
    (root root2 : UsdPrim) (params params2 : UsdImagingGLRenderParams)
    (hit hit2 : bool) (out out2 : IntersectionOut)
    (self' : Engine) (self2' : Engine2) :
  TestIntersection self viewMatrix projectionMatrix root params
                   (_TestIntersection_locals (Engine := Engine))
    = (hit, out, self') ->
  (TestIntersection self2 viewMatrix2 projectionMatrix2 root2 params2
                    (_TestIntersection_locals (Engine := Engine2))
     = (hit2, out2, self2') ->
   hitPoint out2 = hitPoint out ->
   hitNormal out2 = hitNormal out ->
   hitPrimPath out2 = hitPrimPath out ->
   hitInstanceIndex out2 = hitInstanceIndex out ->
   head (hitInstancerContext out2) = head (hitInstancerContext out) ->
   fst (_TestIntersection self2 viewMatrix2 projectionMatrix2 root2 params2)
   = fst (_TestIntersection self viewMatrix projectionMatrix root params)) ∧
  (out = _TestIntersection_locals (Engine := Engine) ->
   fst (_TestIntersection self viewMatrix projectionMatrix root params) =
   (GfVec3d_fill (double_zero (Engine := Engine)),
    GfVec3d_fill (double_zero (Engine := Engine)),
    SdfPath_EmptyPath, -1, SdfPath_EmptyPath, -1)).
Proof.
  intros Hcall. split.
  - intros Hcall2 Hpoint Hnormal Hprim Hinst Hhead.
    rewrite (_TestIntersection_unfold _ _ _ _ _ _ _ _ Hcall).
    rewrite (_TestIntersection_unfold _ _ _ _ _ _ _ _ Hcall2).
    cbn [fst]. rewrite Hpoint, Hnormal, Hprim, Hinst.
    destruct (hitInstancerContext out) as [|entry rest],
             (hitInstancerContext out2) as [|entry2 rest2];
      cbn in Hhead; by simplify_eq.
  - intros ->. by rewrite (_TestIntersection_unfold _ _ _ _ _ _ _ _ Hcall).
Qed.

End WrapEngineFurther.

Lemma TestIntersection_tuple_inputs_witness :
  let out :=
    mkIntersectionOut (mkGfVec3d 1 2 3) (mkGfVec3d 0 0 1) "/World/Cube"
                      "/World/Instancer" 5 [("/pathA", 3); ("/pathB", 7)] in
  let out2 :=
    mkIntersectionOut (mkGfVec3d 1 2 3) (mkGfVec3d 0 0 1) "/World/Cube"
                      "/World/Other" 5 [("/pathA", 3)] in
  let self := mkCannedEngine (Some out) (false, CameraUtilFit) in
  let self2 := mkCannedEngine (Some out2) (true, CameraUtilCrop) in
  let miss := mkCannedEngine None (false, CameraUtilFit) in
  fst (_TestIntersection self2 () () () ()) =
  fst (_TestIntersection self () () () ()) ∧
  fst (_TestIntersection miss () () () ()) =
  (mkGfVec3d 0 0 0, mkGfVec3d 0 0 0, "", -1, "", -1).
Proof.
  intros out out2 self self2 miss.
  assert (Hcall : TestIntersection self () () () () _TestIntersection_locals
                  = (true, out, self)) by reflexivity.
  assert (Hcall2 : TestIntersection self2 () () () () _TestIntersection_locals
                   = (true, out2, self2)) by reflexivity.
  assert (Hmissed : TestIntersection miss () () () () _TestIntersection_locals
                    = (false, _TestIntersection_locals, miss)) by reflexivity.
  destruct (TestIntersection_tuple_inputs CannedEngine_engine self self2
              () () () () () () () () true true out out2 self self2 Hcall)
    as [Hsame _].
  destruct (TestIntersection_tuple_inputs CannedEngine_engine miss miss
              () () () () () () () () false false _TestIntersection_locals
              _TestIntersection_locals miss miss Hmissed)
    as [_ Hmiss].
  exact (conj (Hsame Hcall2 eq_refl eq_refl eq_refl eq_refl eq_refl)
              (Hmiss eq_refl)).
Defined.
